(** * Trivia API: the Flask handlers of [backend/flaskr/__init__.py]

    A shallow embedding of the request handlers of the trivia backend and
    the properties its specification states about them.  Python integers
    are [Z], Python strings are [string], a JSON body is a finite map from
    keys to values, the database is a record of tables threaded through
    the handlers that write to it, and [abort] / [try ... except] are an
    error monad over Python exceptions. *)

From Stdlib Require Import ZArith List String Ascii Bool Lia Permutation.
From Stdlib Require Import DecimalString DecimalZ.
From stdpp Require Import gmap strings list.

Open Scope string_scope.
Open Scope list_scope.
Open Scope Z_scope.

(** ** Python: exceptions, [str], slices *)

(** The exceptions the handlers can see.  [abort(code)] raises werkzeug's
    [HTTPException], which derives from [Exception] like the others. *)
Inductive exn : Type :=
  | HTTPException (code : Z)
  | TypeError
  | KeyError
  | DataError
  | MultipleResultsFound
  | RepositoryError.

Inductive outcome (A : Type) : Type :=
  | Return (a : A)
  | Raise (e : exn).
Arguments Return {A} a.
Arguments Raise {A} e.

Definition abort {A : Type} (code : Z) : outcome A := Raise (HTTPException code).

(** The failures of the specification are the statuses the handlers abort with. *)
Definition InvalidRequest : exn := HTTPException 400.
Definition NotFound : exn := HTTPException 404.
Definition UnprocessableEntity : exn := HTTPException 422.

(** Sequencing: a raise skips the rest of the block.  With these instances
    [x ← m; k] reads as the statement [x = m] followed by [k]. *)
#[global] Instance outcome_bind : MBind outcome := fun A B k m =>
  match m with
  | Return a => k a
  | Raise e => Raise e
  end.
#[global] Instance outcome_ret : MRet outcome := @Return.

(** [try: body except Exception as e: handler]: every member of [exn] is an
    [Exception], so every raise of the body reaches the handler. *)
Definition try_except {A : Type} (body : outcome A) (handler : exn -> outcome A)
  : outcome A :=
  match body with
  | Return a => Return a
  | Raise e => handler e
  end.

(** [str(n)] on an integer: decimal digits, a leading minus sign when negative. *)
Definition str (n : Z) : string := NilZero.string_of_int (Z.to_int n).

(** [len(l)] *)
Definition len {A : Type} (l : list A) : Z := Z.of_nat (length l).

(** A slice index as Python resolves it against a sequence of length [n]:
    a negative index counts from the end, and the result is clamped to
    [0 .. n]. *)
Definition slice_index (n i : Z) : Z :=
  if i <? 0 then Z.max (i + n) 0 else Z.min i n.

(** [l[start:stop]] *)
Definition slice {A : Type} (l : list A) (start stop : Z) : list A :=
  let lo := slice_index (len l) start in
  let hi := slice_index (len l) stop in
  take (Z.to_nat (hi - lo)) (drop (Z.to_nat lo) l).

(** [x in l] for an integer and a list of integers *)
Definition py_in (x : Z) (l : list Z) : bool := existsb (Z.eqb x) l.

(** ** JSON bodies *)

(** The values of the keys the handlers read.  [JNull] is Python's [None]. *)
Inductive json : Type :=
  | JNull
  | JInt (n : Z)
  | JStr (s : string).

Definition is_None (v : json) : bool :=
  match v with
  | JNull => true
  | _ => false
  end.

(** A JSON object, as the dict that [request.get_json()] and
    [Question.format] give. *)
Abbreviation dict := (gmap string json).

(** [json_body.get(key, None)] *)
Definition get (json_body : dict) (key : string) : json :=
  default JNull (json_body !! key).

(** All four fields of the body are present and not null. *)
Definition all_present (json_body : dict) : Prop :=
  get json_body "question" <> JNull /\ get json_body "answer" <> JNull /\
  get json_body "difficulty" <> JNull /\ get json_body "category" <> JNull.

(** ** models.py *)

Module Question.
(** Modelled from the spec: [models.py] is not among the sources.  A
    question row has the five fields of the display record; [category] is
    the column the handlers compare with [str(id)]. *)
Record t : Type := mk {
  id : Z;
  question : string;
  answer : string;
  category : string;
  difficulty : Z
}.

(** Modelled from the spec: [Question.format], the display record
    [{id, question, answer, category, difficulty}] as a dict. *)
Definition format (q : t) : dict :=
  <["id" := JInt (id q)]>
    (<["question" := JStr (question q)]>
       (<["answer" := JStr (answer q)]>
          (<["category" := JStr (category q)]>
             (<["difficulty" := JInt (difficulty q)]> ∅)))).
End Question.

Module Category.
(** Modelled from the spec: a category row, [id] and display label. *)
Record t : Type := mk {
  id : Z;
  type : string
}.
End Category.

(** The database: the two tables, in listing order, and the sequence the
    question ids are drawn from. *)
Record Store : Type := mkStore {
  questions_table : list Question.t;
  categories_table : list Category.t;
  id_seq : Z
}.

(** [Question.query.all()] and [Question.query.filter(p).all()] *)
Definition query_all (db : Store) : list Question.t := questions_table db.
Definition query_filter (p : Question.t -> bool) (db : Store) : list Question.t :=
  List.filter p (questions_table db).

(** [.one_or_none()] on the rows a query selects. *)
Definition one_or_none {A : Type} (rows : list A) : outcome (option A) :=
  match rows with
  | [] => Return None
  | [row] => Return (Some row)
  | _ => Raise MultipleResultsFound
  end.

(** [Question.id == str(id)]: the integer column against the decimal
    literal the handler builds. *)
Definition id_is (n : Z) (q : Question.t) : bool :=
  String.eqb (str (Question.id q)) (str n).

(** Modelled from the spec: [models.py] is not among the sources.  The id
    is an integer column; in the PostgreSQL database the tests configure
    it holds the 32-bit signed integers. *)
Definition INTEGER_MIN : Z := -2147483648.
Definition INTEGER_MAX : Z := 2147483647.

Definition in_integer_range (n : Z) : bool :=
  (INTEGER_MIN <=? n) && (n <=? INTEGER_MAX).

(** [Question.query.filter(Question.id == str(id)).one_or_none()]: the
    database reads the literal as a value of the column's type, and the
    query raises [DataError] when it does not fit. *)
Definition query_by_id (id : Z) (db : Store) : outcome (option Question.t) :=
  if in_integer_range id then one_or_none (query_filter (id_is id) db)
  else Raise DataError.

(** [Question.category == str(id)] *)
Definition category_is (n : Z) (q : Question.t) : bool :=
  String.eqb (Question.category q) (str n).

(** ** The database's [ILIKE] *)


(** Case folding of one character: [A]..[Z] to [a]..[z]. *)
Definition lower_ascii (c : ascii) : ascii :=
  let n := nat_of_ascii c in
  if ((65 <=? n) && (n <=? 90))%nat then ascii_of_nat (n + 32) else c.

Fixpoint lower (s : string) : string :=
  match s with
  | EmptyString => EmptyString
  | String c s' => String (lower_ascii c) (lower s')
  end.

(** The escape character of [LIKE], the backslash. *)
Definition escape_char : ascii := ascii_of_nat 92.

(** [text LIKE pattern]: [%] stands for any run of characters, [_] for any
    one character, and a backslash makes the character after it literal.
    A pattern that ends in a lone backslash matches nothing here; the
    handler's patterns always end in [%]. *)
Fixpoint like (pattern : string) : string -> bool :=
  match pattern with
  | EmptyString => fun text =>
      match text with
      | EmptyString => true
      | String _ _ => false
      end
  | String c pattern' =>
      if Ascii.eqb c "%" then
        fix any (text : string) : bool :=
          like pattern' text ||
          match text with
          | EmptyString => false
          | String _ text' => any text'
          end
      else if Ascii.eqb c "_" then fun text =>
        match text with
        | EmptyString => false
        | String _ text' => like pattern' text'
        end
      else if Ascii.eqb c escape_char then
        match pattern' with
        | EmptyString => fun _ => false
        | String e pattern'' => fun text =>
            match text with
            | EmptyString => false
            | String d text' => Ascii.eqb e d && like pattern'' text'
            end
        end
      else fun text =>
        match text with
        | EmptyString => false
        | String d text' => Ascii.eqb c d && like pattern' text'
        end
  end.

(** [column.ilike(pattern)]: [LIKE] with both sides case-folded. *)
Definition ilike (column pattern : string) : bool :=
  like (lower pattern) (lower column).

(** The reading of "contains the term as a substring under a
    case-insensitive comparison", for comparison with [ilike]. *)
Fixpoint starts_with (term text : string) : bool :=
  match term, text with
  | EmptyString, _ => true
  | String _ _, EmptyString => false
  | String c term', String d text' => Ascii.eqb c d && starts_with term' text'
  end.

Fixpoint contains (term text : string) : bool :=
  starts_with term text ||
  match text with
  | EmptyString => false
  | String _ text' => contains term text'
  end.

Definition contains_ci (term text : string) : bool :=
  contains (lower term) (lower text).


(** ** [random.shuffle] *)

(** [x[i], x[j] = x[j], x[i]] *)
Definition swap {A : Type} (i j : nat) (x : list A) : list A :=
  match x !! i, x !! j with
  | Some a, Some b => <[j:=a]> (<[i:=b]> x)
  | _, _ => x
  end.

(** The loop of [random.shuffle]: for [i] from [len(x) - 1] down to [1],
    swap [x[i]] with [x[randbelow(i + 1)]].  [randbelow] is the generator
    seen as the draw it gives at each [i]. *)
Fixpoint shuffle_loop {A : Type} (randbelow : nat -> nat) (i : nat) (x : list A)
  : list A :=
  match i with
  | O => x
  | S i' => shuffle_loop randbelow i' (swap i (randbelow (S i) mod (S i))%nat x)
  end.

Definition random_shuffle {A : Type} (randbelow : nat -> nat) (x : list A) : list A :=
  shuffle_loop randbelow (length x - 1)%nat x.

(** ** Requests, responses, the repository *)

(** The part of the request the handlers read besides the body:
    [page_arg] is the integer the [page] query argument converts to, [None]
    when the argument is absent or does not convert. *)
Record request : Type := mkRequest {
  page_arg : option Z
}.

(** [request.args.get("page", 1, type=int)] *)
Definition args_get_page (req : request) : Z := default 1 (page_arg req).

Record QuestionsResponse : Type := mkQuestionsResponse {
  qr_success : bool;
  qr_questions : list dict;
  qr_total_questions : Z;
  qr_categories : list string;
  qr_current_category : option string
}.

(** The body that [search_question] and [get_by_category] return. *)
Record ListingResponse : Type := mkListingResponse {
  lr_success : bool;
  lr_questions : list dict;
  lr_total_questions : Z;
  lr_current_category : option string
}.

Record DeleteResponse : Type := mkDeleteResponse {
  dr_success : bool;
  dr_questions : list dict;
  dr_deleted : Z
}.

Record CreateResponse : Type := mkCreateResponse {
  cr_success : bool;
  cr_questions : list dict;
  cr_created : Z;
  cr_question_created : string
}.

Record QuizResponse : Type := mkQuizResponse {
  zr_success : bool;
  zr_question : option dict
}.

(** A handler that writes to the database: it runs against a store and
    leaves a store, whether it returns or raises. *)
Definition handler (A : Type) : Type := Store -> outcome A * Store.

#[global] Instance handler_ret : MRet handler := fun A a db => (Return a, db).
#[global] Instance handler_bind : MBind handler := fun A B k m db =>
  match m db with
  | (Return a, db') => k a db'
  | (Raise e, db') => (Raise e, db')
  end.

Definition abort_h {A : Type} (code : Z) : handler A :=
  fun db => (abort code, db).

(** A read of the database inside a writing handler. *)
Definition query {A : Type} (f : Store -> A) : handler A :=
  fun db => (Return (f db), db).

Definition try_except_h {A : Type} (body : handler A) (on_exn : exn -> handler A)
  : handler A :=
  fun db =>
    match body db with
    | (Return a, db') => (Return a, db')
    | (Raise e, db') => on_exn e db'
    end.

(** [Question(question_str, answer, category, difficulty)]: the object
    before it is inserted, holding what the body gave. *)
Record new_question : Type := mkNew {
  nq_question : json;
  nq_answer : json;
  nq_category : json;
  nq_difficulty : json
}.

(** The two writes of [models.py], which is not among the sources:
    [question.insert()] gives the row as stored (with its id), and
    [question.delete()] removes a row.  Either may raise. *)
Class Repository : Type := {
  insert : new_question -> handler Question.t;
  delete : Question.t -> handler unit
}.

(** ** The handlers *)

Definition QUESTIONS_PER_PAGE : Z := 10.

(** The body of [paginate_questions] with the page and the page size as
    arguments: [paginate_questions] below passes the request's page and
    [QUESTIONS_PER_PAGE]. *)
Definition paginate {A : Type} (items : list A) (page pageSize : Z) : list A :=
  let start := (page - 1) * pageSize in
  let end_ := start + pageSize in
  slice items start end_.

Definition paginate_questions (req : request) (questions : list Question.t)
  : list dict :=
  let page := args_get_page req in
  let formated := map Question.format questions in
  paginate formated page QUESTIONS_PER_PAGE.

(** [GET /questions] *)
Definition get_questions (req : request) (db : Store) : outcome QuestionsResponse :=
  let questions := query_all db in
  let formated := paginate_questions req questions in
  if len formated =? 0 then abort 404
  else
    let categories := categories_table db in
    let category_dict := map Category.type categories in
    Return {| qr_success := true;
              qr_questions := formated;
              qr_total_questions := len questions;
              qr_categories := category_dict;
              qr_current_category := None |}.

(** [DELETE /questions/<int:id>] *)
Definition get_question `{Repository} (req : request) (id : Z)
  : handler DeleteResponse :=
  question ← (fun db => (query_by_id id db, db));
  match question with
  | None => abort_h 404
  | Some question =>
      try_except_h
        (_ ← delete question;
         questions ← query query_all;
         let formated := paginate_questions req questions in
         mret {| dr_success := true;
                 dr_questions := formated;
                 dr_deleted := id |})
        (fun e => abort_h 422)
  end.

Definition insert_question `{Repository} (req : request) (json_body : dict)
  : handler CreateResponse :=
  try_except_h
    (let question_str := get json_body "question" in
     let answer := get json_body "answer" in
     let difficulty := get json_body "difficulty" in
     let category := get json_body "category" in
     _ ← (if is_None question_str || is_None answer
             || is_None difficulty || is_None category
          then abort_h 400 else mret tt);
     question ← insert (mkNew question_str answer category difficulty);
     questions ← query query_all;
     let paged_questions := paginate_questions req questions in
     mret {| cr_success := true;
             cr_questions := paged_questions;
             cr_created := Question.id question;
             cr_question_created := Question.question question |})
    (fun e => abort_h 422).

(** The term [search_question] reads: [json_body.get('searchTerm', '')].
    A value that is not a string cannot be concatenated with ["%"]. *)
Definition search_term_of (json_body : dict) : outcome string :=
  match default (JStr "") (json_body !! "searchTerm") with
  | JStr s => Return s
  | _ => Raise TypeError
  end.

(** The filter of [search_question] on a listing. *)
Definition search (items : list Question.t) (term : string) : list Question.t :=
  List.filter (fun q => ilike (Question.question q) ("%" +:+ term +:+ "%")) items.

Definition search_question (json_body : dict) (db : Store) : outcome ListingResponse :=
  search_term ← search_term_of json_body;
  let questions := search (questions_table db) search_term in
  let formated := map Question.format questions in
  if len formated =? 0 then abort 404
  else
    Return {| lr_success := true;
              lr_questions := formated;
              lr_total_questions := len formated;
              lr_current_category := None |}.

(** [POST /questions] *)
Definition post_question `{Repository} (req : request) (json_body : dict)
  : handler (CreateResponse + ListingResponse) :=
  let question_str := get json_body "question" in
  let search_term := get json_body "searchTerm" in
  if negb (is_None question_str) then
    r ← insert_question req json_body; mret (inl r)
  else if negb (is_None search_term) then
    fun db => (r ← search_question json_body db; Return (inr r), db)
  else abort_h 400.

(** [GET /categories/<int:id>/questions] *)
Definition get_by_category (id : Z) (db : Store) : outcome ListingResponse :=
  let questions := query_filter (category_is id) db in
  let questions_formated := map Question.format questions in
  if len questions_formated =? 0 then abort 404
  else
    Return {| lr_success := true;
              lr_questions := questions_formated;
              lr_total_questions := len questions_formated;
              lr_current_category := Some (str id) |}.

(** A body of [POST /quizzes] as the client builds it: [previous_questions]
    is the list of ids under that key and [quiz_category] the integer
    under ['id'] in the dict under that key; [None] when the key is absent
    or null.  [quiz_json] and [get_quizzes_json] below take the bodies
    that are not of this form as well. *)
Record quiz_body : Type := mkQuizBody {
  previous_questions : option (list Z);
  quiz_category : option Z
}.

(** The loop of [get_different_question] returns at the first question
    whose id is not among the previous ones, and falls off the end (so
    returns [None]) when there is none.  [shuffle] is [random.shuffle]. *)
Definition get_different_question (shuffle : list Question.t -> list Question.t)
    (questions : list Question.t) (previous_questions : list Z)
  : option Question.t :=
  let questions := shuffle questions in
  find (fun question => negb (py_in (Question.id question) previous_questions))
       questions.

(** The candidate pool of [check_category]. *)
Definition pool (category_id : Z) (db : Store) : list Question.t :=
  if category_id =? 0 then query_all db
  else query_filter (category_is category_id) db.

Definition check_category (shuffle : list Question.t -> list Question.t)
    (category_id : Z) (previous_questions : list Z) (db : Store)
  : outcome (option Question.t) :=
  let questions := pool category_id db in
  if len questions =? 0 then abort 404
  else Return (get_different_question shuffle questions previous_questions).

(** [POST /quizzes].  [quiz_category['id']] is read before the check for
    missing keys, so a missing [quiz_category] is a [TypeError]. *)
Definition get_quizzes (shuffle : list Question.t -> list Question.t)
    (json_body : quiz_body) (db : Store) : outcome QuizResponse :=
  category_id ← (match quiz_category json_body with
                 | Some i => Return i
                 | None => Raise TypeError
                 end);
  match previous_questions json_body with
  | None => abort 400
  | Some previous =>
      question ← check_category shuffle category_id previous db;
      match question with
      | Some question =>
          Return {| zr_success := true;
                    zr_question := Some (Question.format question) |}
      | None =>
          Return {| zr_success := true; zr_question := None |}
      end
  end.

(** ** [POST /quizzes] on any body *)

(** What can stand under [quiz_category]: nothing or null, a dict, or a
    value that is neither (a number, a string, a list). *)
Inductive category_json : Type :=
  | CNull
  | CDict (entries : dict)
  | COther.

Record quiz_json : Type := mkQuizJson {
  qj_previous_questions : option (list Z);
  qj_quiz_category : category_json
}.

(** [quiz_category['id']]: [None], a number, a string and a list cannot be
    subscripted with a string; a dict without the key raises [KeyError]. *)
Definition subscript_id (quiz_category : category_json) : outcome json :=
  match quiz_category with
  | CNull => Raise TypeError
  | COther => Raise TypeError
  | CDict entries =>
      match entries !! "id" with
      | Some v => Return v
      | None => Raise KeyError
      end
  end.

(** [category_id == 0] and [str(category_id)] on what the dict holds. *)
Definition equals_zero (category_id : json) : bool :=
  match category_id with
  | JInt n => n =? 0
  | _ => false
  end.

Definition py_str (v : json) : string :=
  match v with
  | JInt n => str n
  | JStr s => s
  | JNull => "None"
  end.

Definition check_category_json (shuffle : list Question.t -> list Question.t)
    (category_id : json) (previous_questions : list Z) (db : Store)
  : outcome (option Question.t) :=
  let questions :=
    if equals_zero category_id then query_all db
    else query_filter
           (fun q => String.eqb (Question.category q) (py_str category_id)) db in
  if len questions =? 0 then abort 404
  else Return (get_different_question shuffle questions previous_questions).

Definition get_quizzes_json (shuffle : list Question.t -> list Question.t)
    (json_body : quiz_json) (db : Store) : outcome QuizResponse :=
  let previous_questions := qj_previous_questions json_body in
  let quiz_category := qj_quiz_category json_body in
  category_id ← subscript_id quiz_category;
  match previous_questions with
  | None => abort 400
  | Some previous =>
      question ← check_category_json shuffle category_id previous db;
      match question with
      | Some question =>
          Return {| zr_success := true;
                    zr_question := Some (Question.format question) |}
      | None =>
          Return {| zr_success := true; zr_question := None |}
      end
  end.

(** The body [quiz_body] stands for. *)
Definition quiz_json_of (json_body : quiz_body) : quiz_json :=
  {| qj_previous_questions := previous_questions json_body;
     qj_quiz_category :=
       match quiz_category json_body with
       | Some i => CDict (<["id" := JInt i]> ∅)
       | None => CNull
       end |}.

(** ** A repository after the specification *)

(** The text a [category] value stores as. *)
Definition category_text (v : json) : option string :=
  match v with
  | JInt n => Some (str n)
  | JStr s => Some s
  | JNull => None
  end.

Definition category_exists (c : string) (db : Store) : bool :=
  existsb (fun cat => String.eqb (str (Category.id cat)) c) (categories_table db).

(** Modelled from the spec: the repository's [insert], which fails when a
    field is missing or empty or when [category] does not resolve to an
    existing category, and otherwise appends the row under the next id of
    the sequence, which is never handed out again. *)
Definition spec_insert (nq : new_question) : handler Question.t :=
  fun db =>
    match nq_question nq, nq_answer nq, category_text (nq_category nq),
          nq_difficulty nq with
    | JStr q, JStr a, Some c, JInt d =>
        if String.eqb q "" || String.eqb a "" || negb (category_exists c db)
        then (Raise RepositoryError, db)
        else
          let row := Question.mk (id_seq db) q a c d in
          (Return row,
           {| questions_table := questions_table db ++ [row];
              categories_table := categories_table db;
              id_seq := id_seq db + 1 |})
    | _, _, _, _ => (Raise RepositoryError, db)
    end.

(** Modelled from the spec: the repository's [delete], which removes the
    row with the question's id. *)
Definition spec_delete (question : Question.t) : handler unit :=
  fun db =>
    (Return tt,
     {| questions_table :=
          List.filter (fun q => negb (Question.id q =? Question.id question))
                      (questions_table db);
        categories_table := categories_table db;
        id_seq := id_seq db |}).

#[global] Instance spec_repository : Repository :=
  {| insert := spec_insert; delete := spec_delete |}.

(** ** Sample data *)

Definition q_paris : Question.t :=
  Question.mk 1 "Which city is Paris?" "The capital of France" "3" 2.
Definition q_cairo : Question.t :=
  Question.mk 2 "Where is Cairo?" "Egypt" "3" 1.
Definition q_water : Question.t :=
  Question.mk 5 "What is H2O" "Water" "1" 1.

(** A question whose text holds a backslash: [What does \n mean?] *)
Definition q_newline : Question.t :=
  Question.mk 7 ("What does " +:+ String escape_char "n mean?") "A new line" "1" 3.

Definition sample_db : Store :=
  {| questions_table := [q_paris; q_cairo; q_water];
     categories_table := [Category.mk 1 "Science"; Category.mk 3 "Geography"];
     id_seq := 6 |}.

Definition empty_db : Store :=
  {| questions_table := [];
     categories_table := [Category.mk 1 "Science"];
     id_seq := 1 |}.

Definition no_page : request := {| page_arg := None |}.
Definition page_two : request := {| page_arg := Some 2 |}.

(** Twelve questions, with the ids 1 to 12. *)
Definition twelve_db : Store :=
  {| questions_table :=
       map (fun i => Question.mk (Z.of_nat i) "Question" "Answer" "1" 1) (seq 1 12);
     categories_table := [Category.mk 1 "Science"];
     id_seq := 13 |}.

(** A create with no [answer]. *)
Definition body_no_answer : dict :=
  <["question" := JStr "How are you?"]>
    (<["difficulty" := JInt 1]> (<["category" := JInt 1]> ∅)).

(** A create that names a category that does not exist. *)
Definition body_unknown_category : dict :=
  <["question" := JStr "How are you?"]>
    (<["answer" := JStr "Good"]>
       (<["difficulty" := JInt 1]> (<["category" := JInt 7]> ∅))).

(** A create that also carries a search term. *)
Definition body_create_and_search : dict :=
  <["searchTerm" := JStr "Paris"]>
    (<["question" := JStr "How are you?"]>
       (<["answer" := JStr "Good"]>
          (<["difficulty" := JInt 1]> (<["category" := JInt 1]> ∅)))).

(** ** The categories endpoint *)

Record CategoriesResponse : Type := mkCategoriesResponse {
  ar_success : bool;
  ar_categories : gmap Z string
}.

(** [{category.id: category.type for category in categories}]: the entries
    are set in listing order, a later one replacing an earlier one under
    the same key. *)
Definition category_dict_of (categories : list Category.t) : gmap Z string :=
  foldl (fun d category => <[Category.id category := Category.type category]> d)
        ∅ categories.

(** [GET /categories] *)
Definition get_all_categories (db : Store) : outcome CategoriesResponse :=
  let categories := categories_table db in
  if len categories =? 0 then abort 404
  else
    let category_dict := category_dict_of categories in
    Return {| ar_success := true; ar_categories := category_dict |}.

(** ** Auxiliary notions for the quiz *)

(** The questions of a listing that have not been asked. *)
Definition unseen (questions : list Question.t) (previous : list Z)
  : list Question.t :=
  List.filter (fun q => negb (py_in (Question.id q) previous)) questions.

#[global] Instance question_eq_dec : EqDecision Question.t.
Proof. solve_decision. Defined.

(** An outcome of [random.shuffle] that brings the copies of [q] to the
    front and keeps the rest in order. *)
Definition draw_first (q : Question.t) (l : list Question.t) : list Question.t :=
  List.filter (fun x => bool_decide (x = q)) l
  ++ List.filter (fun x => negb (bool_decide (x = q))) l.

(** A repository whose writes fail. *)
Definition broken_repository : Repository :=
  {| insert := fun _ db => (Raise RepositoryError, db);
     delete := fun _ db => (Raise RepositoryError, db) |}.

(** A search for a number, and a body with neither key. *)
Definition body_search_number : dict := <["searchTerm" := JInt 5]> ∅.
Definition body_search_paris : dict := <["searchTerm" := JStr "paris"]> ∅.
Definition body_neither : dict := <["quest" := JStr "How are you?"]> ∅.

(** A store with questions and no category. *)
Definition no_category_db : Store :=
  {| questions_table := [q_paris]; categories_table := []; id_seq := 2 |}.

(** A term without the escape character of [LIKE]. *)
Fixpoint no_escape (term : string) : bool :=
  match term with
  | EmptyString => true
  | String c term' => negb (Ascii.eqb c escape_char) && no_escape term'
  end.

(** * Properties *)

(** ** [str] and slices *)

Lemma norm_not_nil (d : Decimal.signed_int) :
  Decimal.norm d <> Decimal.Pos Decimal.Nil /\
  Decimal.norm d <> Decimal.Neg Decimal.Nil.
Proof.
  destruct d as [u|u]; simpl.
  - unfold Decimal.unorm. destruct (Decimal.nzhead u); split; discriminate.
  - destruct (Decimal.nzhead u); split; discriminate.
Qed.

(** Two integers with the same decimal text are the same integer. *)
Lemma str_inj (a b : Z) : str a = str b -> a = b.
Proof.
  unfold str. intros E.
  assert (Hn : forall z, NilZero.int_of_string (NilZero.string_of_int (Z.to_int z))
                         = Some (Z.to_int z)).
  { intros z. rewrite <- (DecimalZ.of_to z) at 1 2. rewrite DecimalZ.to_of.
    destruct (norm_not_nil (Z.to_int z)) as [P N].
    rewrite NilZero.isi by assumption.
    now rewrite <- DecimalZ.to_of, DecimalZ.of_to. }
  pose proof (Hn a) as Ha. rewrite E, Hn in Ha.
  injection Ha as Ha.
  now rewrite <- (DecimalZ.of_to a), <- (DecimalZ.of_to b), Ha.
Qed.

Lemma id_is_spec (n : Z) (q : Question.t) :
  id_is n q = true <-> Question.id q = n.
Proof.
  unfold id_is. rewrite String.eqb_eq. split.
  - apply str_inj.
  - now intros ->.
Qed.

Lemma category_is_spec (n : Z) (q : Question.t) :
  category_is n q = true <-> Question.category q = str n.
Proof. unfold category_is. apply String.eqb_eq. Qed.

Lemma len_zero {A : Type} (l : list A) : (len l =? 0) = true <-> l = [].
Proof.
  unfold len. rewrite Z.eqb_eq. destruct l; simpl; split; intros; try easy; lia.
Qed.

Lemma len_zero_false {A : Type} (l : list A) : (len l =? 0) = false <-> l <> [].
Proof.
  rewrite <- len_zero. destruct (len l =? 0); split; intros; congruence.
Qed.

(** From a start that is not negative, a slice drops and then takes. *)
Lemma slice_take_drop {A : Type} (l : list A) (start stop : Z) :
  0 <= start -> start <= stop ->
  slice l start stop = take (Z.to_nat (stop - start)) (drop (Z.to_nat start) l).
Proof.
  intros H0 H1. unfold slice, slice_index, len.
  replace (start <? 0) with false by (symmetry; apply Z.ltb_ge; lia).
  replace (stop <? 0) with false by (symmetry; apply Z.ltb_ge; lia).
  destruct (Z_lt_le_dec start (Z.of_nat (length l))) as [Hlt|Hge].
  - rewrite (Z.min_l start) by lia.
    destruct (Z_le_gt_dec stop (Z.of_nat (length l))) as [Hs|Hs].
    + now rewrite (Z.min_l stop) by lia.
    + rewrite (Z.min_r stop) by lia.
      rewrite !take_ge; [reflexivity | |]; rewrite length_drop; lia.
  - rewrite (Z.min_r start), (Z.min_r stop) by lia.
    rewrite !drop_ge by lia. now rewrite !take_nil.
Qed.

Lemma slice_nil {A : Type} (start stop : Z) : slice (@nil A) start stop = [].
Proof. unfold slice. now rewrite drop_nil, take_nil. Qed.

(** Whatever the bounds, a slice is a run of consecutive items. *)
Lemma slice_infix {A : Type} (l : list A) (start stop : Z) :
  exists before after, l = before ++ slice l start stop ++ after.
Proof.
  unfold slice.
  set (lo := Z.to_nat (slice_index (len l) start)).
  set (n := Z.to_nat (slice_index (len l) stop - slice_index (len l) start)).
  exists (take lo l), (drop n (drop lo l)).
  now rewrite (take_drop n), (take_drop lo).
Qed.

(** ** Pagination *)

Lemma paginate_take_drop {A : Type} (items : list A) (n p : Z) :
  1 <= n -> 0 < p ->
  paginate items n p = take (Z.to_nat p) (drop (Z.to_nat ((n - 1) * p)) items).
Proof.
  intros Hn Hp. unfold paginate. rewrite slice_take_drop by nia.
  do 2 f_equal. lia.
Qed.

Lemma paginate_past_end {A : Type} (items : list A) (n p : Z) :
  1 <= n -> 0 < p -> len items <= (n - 1) * p -> paginate items n p = [].
Proof.
  intros Hn Hp Hlen. rewrite paginate_take_drop by assumption.
  unfold len in Hlen. rewrite drop_ge by lia. apply take_nil.
Qed.

(** C4 — for every sequence, every page [n >= 1] and every page size
    [p > 0], [paginate] is the slice [items[(n-1)*p : (n-1)*p + p]]: the [p]
    items after the first [(n-1)*p], fewer when the sequence ends; it has at
    most [p] items, it is a run of consecutive items of the input in their
    order, and it is empty when the start is at or beyond the end.
    [paginate_questions] is this slice of the formatted questions at the
    request's page with [p = 10]. *)
Theorem paginate_is_slice {A : Type} (items : list A) (n p : Z) :
  1 <= n -> 0 < p ->
  paginate items n p = slice items ((n - 1) * p) ((n - 1) * p + p) /\
  paginate items n p = take (Z.to_nat p) (drop (Z.to_nat ((n - 1) * p)) items) /\
  len (paginate items n p) <= p /\
  (exists after,
     items = take (Z.to_nat ((n - 1) * p)) items ++ paginate items n p ++ after) /\
  (len items <= (n - 1) * p -> paginate items n p = []) /\
  (forall (req : request) (questions : list Question.t),
     paginate_questions req questions
     = paginate (map Question.format questions) (args_get_page req) 10).
Proof.
  intros Hn Hp. pose proof (paginate_take_drop items n p Hn Hp) as E.
  split; [reflexivity|]. split; [exact E|].
  split; [|split; [|split]].
  - rewrite E. unfold len. rewrite length_take. lia.
  - rewrite E. exists (drop (Z.to_nat p) (drop (Z.to_nat ((n - 1) * p)) items)).
    now rewrite (take_drop (Z.to_nat p)), take_drop.
  - now apply paginate_past_end.
  - reflexivity.
Qed.

Lemma paginate_is_slice_witness :
  1 <= 2 /\ 0 < 2 /\ paginate [1; 2; 3; 4; 5] 2 2 = [3; 4].
Proof.
  split; [lia|]. split; [lia|].
  destruct (paginate_is_slice [1; 2; 3; 4; 5] 2 2 ltac:(lia) ltac:(lia))
    as (_ & E & _).
  rewrite E. reflexivity.
Defined.

(** ** Listing a page *)

Lemma filter_nil_iff {A : Type} (p : A -> bool) (l : list A) :
  List.filter p l = [] <-> forall x, In x l -> p x = false.
Proof.
  induction l as [|a l IH]; simpl.
  - split; [intros _ x []|reflexivity].
  - destruct (p a) eqn:Ea; split.
    + discriminate.
    + intros H. specialize (H a (or_introl eq_refl)). congruence.
    + intros H x [<-|Hx]; [assumption|]. now apply IH.
    + intros H. apply IH. intros x Hx. apply H. now right.
Qed.

Lemma map_nil_iff {A B : Type} (f : A -> B) (l : list A) : map f l = [] <-> l = [].
Proof. destruct l; simpl; split; intros; congruence. Qed.

(** C3 — [get_questions] aborts with 404 exactly when the slice computed
    for the requested page is empty, which is the case when there are no
    questions and when the page starts at or beyond the end of the listing;
    otherwise it returns that slice, [total_questions] being the number of
    all questions of the snapshot and not the length of the slice. *)
Theorem get_questions_page (req : request) (db : Store) :
  let page := paginate_questions req (query_all db) in
  (get_questions req db = Raise NotFound <-> page = []) /\
  (page <> [] ->
   get_questions req db =
   Return {| qr_success := true;
             qr_questions := page;
             qr_total_questions := len (query_all db);
             qr_categories := map Category.type (categories_table db);
             qr_current_category := None |}) /\
  (forall r, get_questions req db = Return r ->
             qr_questions r = page /\ page <> [] /\
             qr_total_questions r = len (query_all db)) /\
  (query_all db = [] -> page = []) /\
  (1 <= args_get_page req ->
   len (query_all db) <= (args_get_page req - 1) * QUESTIONS_PER_PAGE ->
   page = []).
Proof.
  intros page. unfold get_questions. fold page.
  destruct (len page =? 0) eqn:E.
  - apply len_zero in E. split; [|split; [|split; [|split]]].
    + split; [intros _; exact E|reflexivity].
    + congruence.
    + discriminate.
    + intros _; exact E.
    + intros _ _; exact E.
  - apply len_zero_false in E. split; [|split; [|split; [|split]]].
    + split; [discriminate|congruence].
    + reflexivity.
    + intros r [= <-]. simpl. auto.
    + intros H. subst page. rewrite H. apply slice_nil.
    + intros Hp Hl. subst page. unfold paginate_questions.
      apply paginate_past_end; [assumption|reflexivity|].
      unfold len in *. now rewrite length_map.
Qed.

(** ** Listing by category *)

(** C9 — [get_by_category] aborts with 404 exactly when no question has
    the category [str(id)], whether or not a category with that id exists;
    otherwise it returns the matching questions in listing order, their
    number as [total_questions] and [str(id)] as [current_category]. *)
Theorem get_by_category_result (id : Z) (db : Store) :
  let matched := List.filter (category_is id) (questions_table db) in
  (get_by_category id db = Raise NotFound <-> matched = []) /\
  (matched = [] <->
   forall q, In q (questions_table db) -> Question.category q <> str id) /\
  (matched <> [] ->
   get_by_category id db =
   Return {| lr_success := true;
             lr_questions := map Question.format matched;
             lr_total_questions := len matched;
             lr_current_category := Some (str id) |}) /\
  (forall r, get_by_category id db = Return r ->
             lr_questions r = map Question.format matched /\
             lr_total_questions r = len matched /\
             lr_current_category r = Some (str id)).
Proof.
  intros matched. unfold get_by_category, query_filter. fold matched.
  assert (Hlen : len (map Question.format matched) = len matched)
    by (unfold len; now rewrite length_map).
  split; [|split; [|split]].
  - destruct (len (map Question.format matched) =? 0) eqn:E.
    + apply len_zero, map_nil_iff in E. split; [intros _; exact E|reflexivity].
    + apply len_zero_false in E. rewrite map_nil_iff in E.
      split; [discriminate|congruence].
  - subst matched. rewrite filter_nil_iff. split; intros H q Hq.
    + intros Hc. apply category_is_spec in Hc. specialize (H q Hq). congruence.
    + destruct (category_is id q) eqn:Ec; [|reflexivity].
      apply category_is_spec in Ec. now destruct (H q Hq).
  - intros Hne.
    destruct (len (map Question.format matched) =? 0) eqn:E.
    + apply len_zero, map_nil_iff in E. contradiction.
    + now rewrite Hlen.
  - intros r. destruct (len (map Question.format matched) =? 0) eqn:E.
    + discriminate.
    + intros [= <-]. simpl. auto.
Qed.

(** ** The quiz *)

Lemma py_in_spec (x : Z) (l : list Z) : py_in x l = true <-> In x l.
Proof.
  unfold py_in. rewrite existsb_exists. split.
  - intros (y & Hy & E). apply Z.eqb_eq in E. now subst.
  - intros H. exists x. split; [assumption|apply Z.eqb_refl].
Qed.

Lemma swap_perm {A : Type} (i j : nat) (x : list A) : Permutation (swap i j x) x.
Proof.
  unfold swap. destruct (x !! i) eqn:Ei; [|reflexivity].
  destruct (x !! j) eqn:Ej; [|reflexivity].
  now apply Permutation_insert_swap.
Qed.

Lemma shuffle_loop_perm {A : Type} (randbelow : nat -> nat) (i : nat) (x : list A) :
  Permutation (shuffle_loop randbelow i x) x.
Proof.
  revert x. induction i as [|i IH]; intros x; simpl; [reflexivity|].
  etransitivity; [apply IH|apply swap_perm].
Qed.

(** Whatever the generator draws, [random.shuffle] rearranges its argument. *)
Lemma random_shuffle_perm {A : Type} (randbelow : nat -> nat) (x : list A) :
  Permutation (random_shuffle randbelow x) x.
Proof. apply shuffle_loop_perm. Qed.

Lemma pool_spec (category_id : Z) (db : Store) (q : Question.t) :
  In q (pool category_id db) <->
  In q (questions_table db) /\
  (category_id = 0 \/ Question.category q = str category_id).
Proof.
  unfold pool, query_all, query_filter.
  destruct (category_id =? 0) eqn:E.
  - apply Z.eqb_eq in E. tauto.
  - apply Z.eqb_neq in E. rewrite filter_In, category_is_spec. tauto.
Qed.

(** C6 — the candidate pool of [check_category] is every question when
    the category id is 0 and the questions whose category is [str(id)]
    otherwise, and the call aborts with 404 exactly when that pool is empty:
    an error, where an exhausted quiz returns. *)
Theorem check_category_pool (shuffle : list Question.t -> list Question.t)
    (category_id : Z) (previous : list Z) (db : Store) :
  (category_id = 0 -> pool category_id db = questions_table db) /\
  (category_id <> 0 ->
   pool category_id db = List.filter (category_is category_id) (questions_table db)) /\
  (forall q, In q (pool category_id db) <->
             In q (questions_table db) /\
             (category_id = 0 \/ Question.category q = str category_id)) /\
  (check_category shuffle category_id previous db = Raise NotFound
   <-> pool category_id db = []) /\
  (pool category_id db = [] ->
   get_quizzes shuffle (mkQuizBody (Some previous) (Some category_id)) db
   = Raise NotFound) /\
  (pool category_id db <> [] ->
   check_category shuffle category_id previous db
   = Return (get_different_question shuffle (pool category_id db) previous)).
Proof.
  split; [|split; [|split; [|split; [|split]]]].
  - intros ->. reflexivity.
  - intros H. unfold pool. apply Z.eqb_neq in H. now rewrite H.
  - apply pool_spec.
  - unfold check_category.
    destruct (len (pool category_id db) =? 0) eqn:E.
    + apply len_zero in E. split; [intros _; exact E|reflexivity].
    + apply len_zero_false in E. split; [discriminate|congruence].
  - intros H. unfold get_quizzes, check_category. simpl. rewrite H. reflexivity.
  - intros H. unfold check_category. apply len_zero_false in H. now rewrite H.
Qed.

Section Quiz.
Variable shuffle : list Question.t -> list Question.t.
Hypothesis shuffle_perm : forall l, Permutation (shuffle l) l.

Lemma get_different_question_some questions previous q :
  get_different_question shuffle questions previous = Some q ->
  In q questions /\ ~ In (Question.id q) previous.
Proof.
  unfold get_different_question. intros H. apply find_some in H as [Hin Hp].
  split.
  - eapply Permutation_in; [apply shuffle_perm|exact Hin].
  - intros Hprev. apply py_in_spec in Hprev. rewrite Hprev in Hp. discriminate.
Qed.

Lemma get_different_question_none questions previous :
  get_different_question shuffle questions previous = None <->
  forall q, In q questions -> In (Question.id q) previous.
Proof.
  unfold get_different_question. split.
  - intros H q Hq. apply py_in_spec.
    eapply find_none in H.
    + apply negb_false_iff in H. exact H.
    + eapply Permutation_in; [symmetry; apply shuffle_perm|exact Hq].
  - intros H. destruct (find _ _) as [q|] eqn:E; [|reflexivity].
    apply find_some in E as [Hin Hp].
    assert (Hq : In q questions)
      by (eapply Permutation_in; [apply shuffle_perm|exact Hin]).
    apply H, py_in_spec in Hq. rewrite Hq in Hp. discriminate.
Qed.

(** C1 — the selection never answers with a question whose id is among
    the previous ones, and answers [None] when every question of the pool
    has its id there: [get_different_question] does so on every pool, and
    [get_quizzes], which reaches it once the pool has been found not
    empty, returns the question it chose (one of the pool, carrying an
    [id] that is not among the previous ones) or returns with
    [question = None], a return and not the 404 that an empty pool
    gives.  It returns a question as soon as the pool holds one that has
    not been asked. *)
Theorem get_quizzes_unseen (category_id : Z) (previous : list Z) (db : Store) :
  let body := mkQuizBody (Some previous) (Some category_id) in
  (forall questions q,
     get_different_question shuffle questions previous = Some q ->
     In q questions /\ ~ In (Question.id q) previous) /\
  (forall questions,
     (forall q, In q questions -> In (Question.id q) previous) ->
     get_different_question shuffle questions previous = None) /\
  (forall r d, get_quizzes shuffle body db = Return r -> zr_question r = Some d ->
     exists q, d = Question.format q /\ In q (pool category_id db) /\
               d !! "id" = Some (JInt (Question.id q)) /\
               ~ In (Question.id q) previous) /\
  (pool category_id db <> [] ->
   (forall q, In q (pool category_id db) -> In (Question.id q) previous) ->
   get_quizzes shuffle body db = Return {| zr_success := true; zr_question := None |}) /\
  (forall q, In q (pool category_id db) -> ~ In (Question.id q) previous ->
     exists q', get_quizzes shuffle body db
                = Return {| zr_success := true;
                            zr_question := Some (Question.format q') |}) /\
  (pool category_id db = [] -> get_quizzes shuffle body db = Raise NotFound) /\
  Return {| zr_success := true; zr_question := None |} <> Raise NotFound.
Proof.
  intros body.
  split; [intros questions q; apply get_different_question_some|].
  split; [intros questions; apply get_different_question_none|].
  unfold get_quizzes, check_category. simpl.
  destruct (len (pool category_id db) =? 0) eqn:E; simpl.
  - apply len_zero in E. split; [|split; [|split; [|split]]].
    + discriminate.
    + congruence.
    + intros q Hq. rewrite E in Hq. destruct Hq.
    + reflexivity.
    + discriminate.
  - apply len_zero_false in E.
    destruct (get_different_question shuffle (pool category_id db) previous)
      as [q|] eqn:G; simpl.
    + apply get_different_question_some in G as [Hin Hnot].
      split; [|split; [|split; [|split]]].
      * intros r d [= <-] [= <-]. exists q.
        split; [reflexivity|]. split; [assumption|].
        split; [apply lookup_insert_eq|assumption].
      * intros _ Hall. destruct (Hnot (Hall q Hin)).
      * intros _ _ _. now exists q.
      * intros Hnil. contradiction.
      * discriminate.
    + split; [|split; [|split; [|split]]].
      * intros r d [= <-]. discriminate.
      * reflexivity.
      * intros q Hq Hnot. rewrite get_different_question_none in G.
        destruct (Hnot (G q Hq)).
      * intros Hnil. contradiction.
      * discriminate.
Qed.
End Quiz.

Lemma get_quizzes_unseen_witness :
  (forall l : list Question.t, Permutation (random_shuffle (fun _ => 7%nat) l) l) /\
  get_quizzes (random_shuffle (fun _ => 7%nat))
              (mkQuizBody (Some [1; 2]) (Some 3)) sample_db
  = Return {| zr_success := true; zr_question := None |} /\
  get_quizzes (random_shuffle (fun _ => 7%nat))
              (mkQuizBody (Some [1; 2]) (Some 0)) empty_db
  = Raise NotFound.
Proof.
  split; [intros l; apply random_shuffle_perm|].
  destruct (get_quizzes_unseen (random_shuffle (fun _ => 7%nat))
              (fun l => random_shuffle_perm _ l) 3 [1; 2] sample_db)
    as (_ & _ & _ & Hnone & _).
  destruct (get_quizzes_unseen (random_shuffle (fun _ => 7%nat))
              (fun l => random_shuffle_perm _ l) 0 [1; 2] empty_db)
    as (_ & _ & _ & _ & _ & Hempty & _).
  split.
  - apply Hnone.
    + discriminate.
    + intros q [<-|[<-|[]]]; simpl; auto.
  - apply Hempty. reflexivity.
Defined.

(** ** Deleting a question *)

Lemma filter_id_unique (l : list Question.t) (q : Question.t) :
  NoDup (map Question.id l) -> In q l ->
  List.filter (id_is (Question.id q)) l = [q].
Proof.
  induction l as [|a l IH]; simpl; intros Hnd Hin; [destruct Hin|].
  apply NoDup_cons in Hnd as [Ha Hnd]. destruct Hin as [->|Hin].
  - replace (id_is (Question.id q) q) with true
      by (symmetry; now apply id_is_spec).
    f_equal. apply filter_nil_iff. intros x Hx.
    destruct (id_is (Question.id q) x) eqn:E; [|reflexivity].
    apply id_is_spec in E. destruct Ha. rewrite <- E.
    apply list_elem_of_In, in_map, Hx.
  - destruct (id_is (Question.id q) a) eqn:E.
    + apply id_is_spec in E. destruct Ha. rewrite E.
      apply list_elem_of_In, in_map, Hin.
    + now apply IH.
Qed.

Section AnyRepository.
Context `{Repository}.

(** An id that does not fit the column makes the lookup raise; the lookup
    is outside the [try], so nothing catches it and nothing is written. *)
Lemma get_question_out_of_range (req : request) (id : Z) (db : Store) :
  in_integer_range id = false ->
  get_question req id db = (Raise DataError, db).
Proof.
  intros Hr. unfold get_question, mbind, handler_bind, query_by_id.
  now rewrite Hr.
Qed.

(** With no row of that id the handler aborts before it writes. *)
Lemma get_question_not_found (req : request) (id : Z) (db : Store) :
  in_integer_range id = true ->
  (forall q, In q (questions_table db) -> Question.id q <> id) ->
  get_question req id db = (Raise NotFound, db).
Proof.
  intros Hr Hno.
  unfold get_question, mbind, handler_bind, query_by_id, query_filter.
  rewrite Hr.
  replace (List.filter (id_is id) (questions_table db)) with (@nil Question.t).
  - reflexivity.
  - symmetry. apply filter_nil_iff. intros q Hq.
    destruct (id_is id q) eqn:E; [|reflexivity].
    apply id_is_spec in E. now destruct (Hno q Hq).
Qed.

(** With the row found, the handler answers from the store the
    repository's [delete] leaves; a [delete] that raises becomes 422. *)
Lemma get_question_found (req : request) (db : Store) (q : Question.t) :
  in_integer_range (Question.id q) = true ->
  NoDup (map Question.id (questions_table db)) ->
  In q (questions_table db) ->
  get_question req (Question.id q) db =
  match delete q db with
  | (Return _, db') =>
      (Return {| dr_success := true;
                 dr_questions := paginate_questions req (query_all db');
                 dr_deleted := Question.id q |}, db')
  | (Raise _, db') => (Raise UnprocessableEntity, db')
  end.
Proof.
  intros Hr Hnd Hin.
  unfold get_question, mbind, handler_bind, query_by_id, query_filter,
    try_except_h.
  rewrite Hr, (filter_id_unique _ _ Hnd Hin). simpl.
  destruct (delete q db) as [[[]|e] db']; reflexivity.
Qed.
End AnyRepository.

(** C7, amended — with the repository of the specification and an id
    that fits the integer column, [get_question] aborts with 404 and
    leaves the store as it was when no question has the id; when one has,
    it deletes it, so that the listing afterwards holds the other questions
    and not this one, and returns the id with the page of the remaining
    questions that the request names, which is their first page (the first
    ten) when the request names none.  An id that does not fit the column
    makes the lookup raise [DataError], which the handler does not catch;
    the store is as it was. *)
Theorem get_question_deletes (req : request) (id : Z) (db : Store) :
  NoDup (map Question.id (questions_table db)) ->
  (in_integer_range id = true ->
   (forall q, In q (questions_table db) -> Question.id q <> id) ->
   @get_question spec_repository req id db = (Raise NotFound, db)) /\
  (in_integer_range id = true ->
   forall q, In q (questions_table db) -> Question.id q = id ->
   exists db',
     @get_question spec_repository req id db
     = (Return {| dr_success := true;
                  dr_questions := paginate_questions req (query_all db');
                  dr_deleted := id |}, db') /\
     (forall q', In q' (query_all db') <->
                 In q' (questions_table db) /\ Question.id q' <> id) /\
     ~ In q (query_all db') /\
     (page_arg req = None ->
      paginate_questions req (query_all db')
      = take 10 (map Question.format (query_all db')))) /\
  (in_integer_range id = false ->
   @get_question spec_repository req id db = (Raise DataError, db)).
Proof.
  intros Hnd. split; [apply get_question_not_found|].
  split; [|apply get_question_out_of_range].
  intros Hr q Hin <-.
  rewrite (get_question_found req db q Hr Hnd Hin).
  exists (snd (spec_delete q db)). split; [reflexivity|].
  unfold query_all. simpl.
  assert (Hmem : forall q', In q' (List.filter
             (fun q0 => negb (Question.id q0 =? Question.id q)) (questions_table db))
           <-> In q' (questions_table db) /\ Question.id q' <> Question.id q).
  { intros q'. rewrite filter_In, negb_true_iff, Z.eqb_neq. tauto. }
  split; [exact Hmem|]. split.
  - intros Hq. apply Hmem in Hq. now destruct Hq.
  - intros Hpage. unfold paginate_questions, args_get_page. rewrite Hpage. simpl.
    rewrite paginate_take_drop by (unfold QUESTIONS_PER_PAGE; lia).
    reflexivity.
Qed.

Lemma get_question_deletes_witness :
  NoDup (map Question.id (questions_table sample_db)) /\
  in_integer_range 2 = true /\
  fst (@get_question spec_repository no_page 2 sample_db)
  = Return {| dr_success := true;
              dr_questions := [Question.format q_paris; Question.format q_water];
              dr_deleted := 2 |} /\
  ~ In q_cairo (query_all (snd (@get_question spec_repository no_page 2 sample_db))).
Proof.
  assert (Hnd : NoDup (map Question.id (questions_table sample_db))).
  { simpl. repeat constructor; rewrite ?list_elem_of_In; simpl; intuition lia. }
  split; [exact Hnd|]. split; [reflexivity|].
  destruct (get_question_deletes no_page 2 sample_db Hnd) as (_ & Hdel & _).
  destruct (Hdel eq_refl q_cairo) as (db' & E & _ & Hgone & _);
    [simpl; auto|reflexivity|].
  split; [reflexivity|]. rewrite E. exact Hgone.
Defined.

(** C7 as stated fails on a request that names a page: deleting question 12
    of twelve with [page=2] returns the one question of the second page of
    the remaining eleven, not their first page.  It also fails on an id
    beyond the integer column: no question has the id 2147483648, and the
    handler ends in [DataError], not in 404. *)
Lemma get_question_second_page :
  NoDup (map Question.id (questions_table twelve_db)) /\
  (exists r db',
    @get_question spec_repository page_two 12 twelve_db = (Return r, db') /\
    dr_deleted r = 12 /\
    len (query_all db') = 11 /\
    len (dr_questions r) = 1 /\
    dr_questions r <> take 10 (map Question.format (query_all db'))) /\
  (forall q, In q (questions_table twelve_db) -> Question.id q <> 2147483648) /\
  @get_question spec_repository no_page 2147483648 twelve_db
  = (Raise DataError, twelve_db).
Proof.
  split; [|split; [|split]].
  - apply (bool_decide_unpack _). vm_compute. exact I.
  - eexists. eexists. split; [reflexivity|].
    split; [reflexivity|]. split; [reflexivity|]. split; [reflexivity|].
    intros E. apply (f_equal (@length _)) in E. vm_compute in E. discriminate.
  - intros q Hq. apply in_map_iff in Hq as (i & <- & Hi). simpl.
    apply in_seq in Hi. lia.
  - reflexivity.
Qed.

(** ** Creating a question *)

Lemma is_None_true (v : json) : is_None v = true <-> v = JNull.
Proof. destruct v; simpl; split; intros; congruence. Qed.

Lemma is_None_false (v : json) : is_None v = false <-> v <> JNull.
Proof. destruct v; simpl; split; intros; congruence. Qed.

Section Create.
Context `{Repository}.

(** What [insert_question] comes to: the [abort(400)] for a missing field is
    raised inside the [try] block, so the [except] clause turns it into
    422 like every other raise of the block. *)
Lemma insert_question_cases (req : request) (json_body : dict) (db : Store) :
  insert_question req json_body db =
  if is_None (get json_body "question") || is_None (get json_body "answer")
     || is_None (get json_body "difficulty") || is_None (get json_body "category")
  then (Raise UnprocessableEntity, db)
  else
    match insert (mkNew (get json_body "question") (get json_body "answer")
                        (get json_body "category") (get json_body "difficulty")) db with
    | (Return question, db') =>
        (Return {| cr_success := true;
                   cr_questions := paginate_questions req (query_all db');
                   cr_created := Question.id question;
                   cr_question_created := Question.question question |}, db')
    | (Raise _, db') => (Raise UnprocessableEntity, db')
    end.
Proof.
  unfold insert_question, try_except_h, mbind, handler_bind.
  destruct (_ || _ || _ || _); simpl; [reflexivity|].
  destruct (insert _ db) as [[question|e] db']; reflexivity.
Qed.

Lemma post_question_create (req : request) (json_body : dict) (db : Store) :
  get json_body "question" <> JNull ->
  post_question req json_body db =
  match insert_question req json_body db with
  | (Return r, db') => (Return (inl r), db')
  | (Raise e, db') => (Raise e, db')
  end.
Proof.
  intros Hq. apply is_None_false in Hq.
  unfold post_question. rewrite Hq. simpl.
  unfold mbind, handler_bind.
  destruct (insert_question req json_body db) as [[r|e] db']; reflexivity.
Qed.

Lemma get_insert_ne (json_body : dict) (k k' : string) (v : json) :
  k <> k' -> get (<[k := v]> json_body) k' = get json_body k'.
Proof. intros Hne. unfold get. now rewrite lookup_insert_ne. Qed.

Lemma insert_question_ignores_search_term (req : request) (json_body : dict)
    (term : json) (db : Store) :
  insert_question req (<["searchTerm" := term]> json_body) db
  = insert_question req json_body db.
Proof.
  rewrite !insert_question_cases.
  now rewrite !(get_insert_ne json_body "searchTerm") by discriminate.
Qed.

(** C2 — the code departs from the claim here.  A body whose [question] is
    present and which misses one of [answer], [difficulty], [category] does
    not fail with 400: [insert_question] and [post_question] abort with
    422, the store unchanged. *)
Theorem insert_question_missing_field (req : request) (json_body : dict)
    (db : Store) :
  get json_body "question" <> JNull ->
  get json_body "answer" = JNull \/ get json_body "difficulty" = JNull \/
  get json_body "category" = JNull ->
  insert_question req json_body db = (Raise UnprocessableEntity, db) /\
  post_question req json_body db = (Raise UnprocessableEntity, db) /\
  post_question req json_body db <> (Raise InvalidRequest, db).
Proof.
  intros Hq Hmiss.
  assert (E : insert_question req json_body db = (Raise UnprocessableEntity, db)).
  { rewrite insert_question_cases.
    destruct Hmiss as [-> | [-> | ->]]; simpl; rewrite ?orb_true_r; reflexivity. }
  rewrite (post_question_create _ _ _ Hq), E.
  repeat split. discriminate.
Qed.

(** With the four fields present, a raise of the repository's [insert]
    reaches the [except] clause. *)
Lemma insert_question_raise (req : request) (json_body : dict)
    (db db' : Store) (e : exn) :
  all_present json_body ->
  insert (mkNew (get json_body "question") (get json_body "answer")
                (get json_body "category") (get json_body "difficulty")) db
  = (Raise e, db') ->
  insert_question req json_body db = (Raise UnprocessableEntity, db') /\
  post_question req json_body db = (Raise UnprocessableEntity, db').
Proof.
  intros (Hq & Ha & Hd & Hc) Hins.
  assert (E : insert_question req json_body db = (Raise UnprocessableEntity, db')).
  { rewrite insert_question_cases.
    apply is_None_false in Ha, Hd, Hc. pose proof Hq as Hq'.
    apply is_None_false in Hq'. rewrite Hq', Ha, Hd, Hc. simpl.
    now rewrite Hins. }
  now rewrite (post_question_create _ _ _ Hq), E.
Qed.

(** C10 — a body whose [question] is not null is dispatched to the create,
    whatever [searchTerm] holds.  With the four fields there, the
    repository's [insert] runs on the object built from them; the store
    afterwards is the one it leaves, and the answer carries the id and the
    text of the row as stored with the page of the listing after the
    insert, or is 422 when the [insert] raised.  The search does not run:
    the result is that of [insert_question], it is never a search result,
    and it is the same for every value of [searchTerm], present or not. *)
Theorem post_question_create_first (req : request) (json_body : dict)
    (db : Store) :
  get json_body "question" <> JNull ->
  (all_present json_body ->
   post_question req json_body db =
   match insert (mkNew (get json_body "question") (get json_body "answer")
                       (get json_body "category") (get json_body "difficulty")) db with
   | (Return question, db') =>
       (Return (inl {| cr_success := true;
                       cr_questions := paginate_questions req (query_all db');
                       cr_created := Question.id question;
                       cr_question_created := Question.question question |}), db')
   | (Raise _, db') => (Raise UnprocessableEntity, db')
   end) /\
  post_question req json_body db =
    match insert_question req json_body db with
    | (Return r, db') => (Return (inl r), db')
    | (Raise e, db') => (Raise e, db')
    end /\
  (forall term : json,
     post_question req (<["searchTerm" := term]> json_body) db
     = post_question req json_body db) /\
  (forall r db', post_question req json_body db <> (Return (inr r), db')).
Proof.
  intros Hq. split; [|split; [now apply post_question_create|split]].
  - intros (_ & Ha & Hd & Hc).
    rewrite post_question_create, insert_question_cases by assumption.
    apply is_None_false in Ha, Hd, Hc. pose proof Hq as Hq'.
    apply is_None_false in Hq'. rewrite Hq', Ha, Hd, Hc. simpl.
    destruct (insert _ db) as [[question|e] db']; reflexivity.
  - intros term.
    rewrite !post_question_create, insert_question_ignores_search_term;
      [reflexivity|assumption|].
    now rewrite get_insert_ne by discriminate.
  - intros r db'. rewrite post_question_create by assumption.
    destruct (insert_question req json_body db) as [[r0|e] db0]; discriminate.
Qed.
End Create.

Lemma insert_question_missing_field_witness :
  get body_no_answer "question" <> JNull /\
  get body_no_answer "answer" = JNull /\
  @insert_question spec_repository no_page body_no_answer sample_db
  = (Raise UnprocessableEntity, sample_db).
Proof.
  assert (Hq : get body_no_answer "question" <> JNull) by (vm_compute; discriminate).
  assert (Ha : get body_no_answer "answer" = JNull) by reflexivity.
  split; [exact Hq|]. split; [exact Ha|].
  apply (@insert_question_missing_field spec_repository no_page body_no_answer
           sample_db Hq (or_introl Ha)).
Defined.

Lemma spec_insert_unknown_category (nq : new_question) (c : string) (db : Store) :
  category_text (nq_category nq) = Some c -> category_exists c db = false ->
  spec_insert nq db = (Raise RepositoryError, db).
Proof.
  intros Hc He. unfold spec_insert. rewrite Hc.
  destruct (nq_question nq), (nq_answer nq), (nq_difficulty nq);
    try reflexivity.
  now rewrite He, orb_true_r.
Qed.

(** C8 — with the four fields present, an [insert] of the repository that
    raises makes the create abort with 422, whatever was raised; so does,
    with the repository of the specification, a [category] that names no
    existing category. *)
Theorem insert_question_repository_failure (repo : Repository) (req : request)
    (json_body : dict) (db : Store) :
  all_present json_body ->
  (forall e db',
     @insert repo (mkNew (get json_body "question") (get json_body "answer")
                         (get json_body "category") (get json_body "difficulty")) db
     = (Raise e, db') ->
     @insert_question repo req json_body db = (Raise UnprocessableEntity, db') /\
     @post_question repo req json_body db = (Raise UnprocessableEntity, db')) /\
  (forall c, category_text (get json_body "category") = Some c ->
             category_exists c db = false ->
     @insert_question spec_repository req json_body db
     = (Raise UnprocessableEntity, db) /\
     @post_question spec_repository req json_body db
     = (Raise UnprocessableEntity, db)).
Proof.
  intros Hall. split.
  - intros e db' Hins. now apply (insert_question_raise req json_body db db' e).
  - intros c Hc He.
    apply (@insert_question_raise spec_repository req json_body db db
             RepositoryError Hall).
    now apply (spec_insert_unknown_category _ c).
Qed.

Lemma insert_question_repository_failure_witness :
  all_present body_unknown_category /\
  @post_question spec_repository no_page body_unknown_category sample_db
  = (Raise UnprocessableEntity, sample_db).
Proof.
  assert (Hall : all_present body_unknown_category)
    by (repeat split; vm_compute; discriminate).
  split; [exact Hall|].
  destruct (insert_question_repository_failure spec_repository no_page
              body_unknown_category sample_db Hall) as [Hraise _].
  apply (Hraise RepositoryError sample_db). reflexivity.
Defined.

Lemma post_question_create_first_witness :
  get body_create_and_search "question" <> JNull /\
  all_present body_create_and_search /\
  (exists r db',
     @post_question spec_repository no_page body_create_and_search sample_db
     = (Return (inl r), db') /\
     cr_created r = 6 /\
     cr_question_created r = "How are you?" /\
     questions_table db'
     = questions_table sample_db ++ [Question.mk 6 "How are you?" "Good" "1" 1]).
Proof.
  assert (Hq : get body_create_and_search "question" <> JNull)
    by (vm_compute; discriminate).
  assert (Hall : all_present body_create_and_search)
    by (repeat split; vm_compute; discriminate).
  split; [exact Hq|]. split; [exact Hall|].
  destruct (@post_question_create_first spec_repository no_page
              body_create_and_search sample_db Hq) as (E & _).
  rewrite (E Hall). eexists. eexists.
  split; [reflexivity|]. split; [reflexivity|]. split; reflexivity.
Defined.

(** ** Searching *)

Lemma starts_with_spec (term text : string) :
  starts_with term text = true <-> exists rest, text = term +:+ rest.
Proof.
  revert text. induction term as [|c term IH]; intros text; simpl.
  - split; [intros _; now exists text|reflexivity].
  - destruct text as [|d text]; simpl.
    + split; [discriminate|intros [rest Hr]; discriminate].
    + rewrite andb_true_iff, IH. split.
      * intros [Hc [rest ->]]. apply Ascii.eqb_eq in Hc. subst. now exists rest.
      * intros [rest [= -> ->]]. split; [apply Ascii.eqb_refl|now exists rest].
Qed.

(** [contains] decides "is a substring of". *)
Lemma contains_spec (term text : string) :
  contains term text = true <-> exists before rest, text = before +:+ term +:+ rest.
Proof.
  induction text as [|d text IH]; simpl.
  - rewrite orb_false_r, starts_with_spec. split.
    + intros [rest ->]. now exists "", rest.
    + intros (before & rest & E). destruct before; [now exists rest|discriminate].
  - rewrite orb_true_iff, starts_with_spec, IH. split.
    + intros [[rest ->]|(before & rest & ->)].
      * now exists "", rest.
      * now exists (String d before), rest.
    + intros (before & rest & E). destruct before as [|b before]; simpl in E.
      * left. now exists rest.
      * right. injection E as -> ->. now exists before, rest.
Qed.

Lemma like_any (pattern text : string) :
  like (String "%" pattern) text =
  like pattern text ||
  match text with
  | EmptyString => false
  | String _ text' => like (String "%" pattern) text'
  end.
Proof. destruct text; reflexivity. Qed.

Lemma like_percent (text : string) : like "%" text = true.
Proof.
  induction text as [|d text IH]; [reflexivity|].
  rewrite like_any. simpl. exact IH.
Qed.

Lemma like_literal (c : ascii) (pattern text : string) :
  Ascii.eqb c "%" = false -> Ascii.eqb c "_" = false ->
  Ascii.eqb c escape_char = false ->
  like (String c pattern) text =
  match text with
  | EmptyString => false
  | String d text' => Ascii.eqb c d && like pattern text'
  end.
Proof.
  intros Hp Hu He. cbn -[Ascii.eqb]. now rewrite Hp, Hu, He.
Qed.



Lemma lower_app (s t : string) : lower (s +:+ t) = lower s +:+ lower t.
Proof. induction s as [|c s IH]; simpl; [reflexivity|now rewrite IH]. Qed.

Lemma lower_ascii_special (c : ascii) :
  Ascii.eqb (lower_ascii c) "%" = Ascii.eqb c "%" /\
  Ascii.eqb (lower_ascii c) "_" = Ascii.eqb c "_" /\
  Ascii.eqb (lower_ascii c) escape_char = Ascii.eqb c escape_char.
Proof. destruct c as [[] [] [] [] [] [] [] []]; repeat split; reflexivity. Qed.




Lemma search_paris :
  search (questions_table sample_db) "paris" = [q_paris] /\
  contains "Paris" (Question.question q_paris) = true.
Proof. split; reflexivity. Qed.

(** C5 — the code departs from the claim here.  The term goes into the
    [ILIKE] pattern as it is, so [_] in a term stands for any character:
    the search for ["_"] returns the three sample questions, none of which
    contains an underscore, and the search for ["h_o"] returns the question
    about [H2O].  A backslash in a term escapes what follows it: the search
    for a backslash does not return the question that contains one. *)
Theorem search_term_wildcard :
  search (questions_table sample_db) "_" = [q_paris; q_cairo; q_water] /\
  (forall q, In q (questions_table sample_db) ->
             contains_ci "_" (Question.question q) = false) /\
  search (questions_table sample_db) "h_o" = [q_water] /\
  contains_ci "h_o" (Question.question q_water) = false /\
  (exists r, search_question {["searchTerm" := JStr "_"]} sample_db = Return r /\
             lr_total_questions r = 3) /\
  search [q_newline] (String escape_char "") = [] /\
  contains_ci (String escape_char "") (Question.question q_newline) = true.
Proof.
  split; [reflexivity|]. split.
  - intros q [<-|[<-|[<-|[]]]]; reflexivity.
  - split; [reflexivity|]. split; [reflexivity|]. split.
    + eexists. split; reflexivity.
    + split; reflexivity.
Qed.

(** * Further properties of the handlers *)

(** ** Pages *)

Lemma paginate_length {A : Type} (items : list A) (n p : Z) :
  1 <= n -> 0 < p ->
  len (paginate items n p) = Z.min p (Z.max 0 (len items - (n - 1) * p)).
Proof.
  intros Hn Hp. rewrite paginate_take_drop by assumption.
  unfold len. rewrite length_take, length_drop. nia.
Qed.

Lemma get_questions_not_found_iff (req : request) (db : Store) :
  get_questions req db = Raise NotFound
  <-> paginate_questions req (query_all db) = [].
Proof.
  unfold get_questions.
  destruct (len (paginate_questions req (query_all db)) =? 0) eqn:E.
  - apply len_zero in E. split; [intros _; exact E|reflexivity].
  - apply len_zero_false in E. split; [discriminate|congruence].
Qed.

Lemma len_map {A B : Type} (f : A -> B) (l : list A) : len (map f l) = len l.
Proof. unfold len. now rewrite length_map. Qed.

(** X1 — walking the pages 1, 2, ..., [k] in order gives the first [k * p] items,
    each once and in listing order; with enough pages, the whole listing. *)
Theorem paginate_pages_concat {A : Type} (items : list A) (p : Z) (k : nat) :
  0 < p ->
  concat (map (fun n => paginate items (Z.of_nat n) p) (seq 1 k))
  = take (k * Z.to_nat p) items /\
  (len items <= Z.of_nat k * p ->
   concat (map (fun n => paginate items (Z.of_nat n) p) (seq 1 k)) = items).
Proof.
  intros Hp.
  assert (E : concat (map (fun n => paginate items (Z.of_nat n) p) (seq 1 k))
              = take (k * Z.to_nat p) items).
  { induction k as [|k IH]; [reflexivity|].
    rewrite seq_S, map_app, concat_app, IH. simpl.
    rewrite app_nil_r, paginate_take_drop by lia.
    replace (Z.to_nat ((Z.of_nat (S k) - 1) * p)) with (k * Z.to_nat p)%nat by nia.
    rewrite take_take_drop. f_equal. lia. }
  split; [exact E|].
  intros Hlen. rewrite E. apply take_ge. unfold len in Hlen. nia.
Qed.

Lemma paginate_pages_concat_witness :
  0 < 2 /\
  concat (map (fun n => paginate [1; 2; 3; 4; 5] (Z.of_nat n) 2) (seq 1 3))
  = [1; 2; 3; 4; 5].
Proof.
  split; [lia|].
  destruct (paginate_pages_concat [1; 2; 3; 4; 5] 2 3 ltac:(lia)) as [_ E].
  apply E. vm_compute. discriminate.
Defined.

(** X2 — for a page [n >= 1], [GET /questions] aborts with 404 exactly when the
    listing has at most [(n - 1) * 10] questions; otherwise the page holds
    ten questions, or what is left of the listing when that is fewer. *)
Theorem get_questions_page_exists (req : request) (db : Store) :
  1 <= args_get_page req ->
  (get_questions req db = Raise NotFound
   <-> len (query_all db) <= (args_get_page req - 1) * 10) /\
  (forall r, get_questions req db = Return r ->
     len (qr_questions r)
     = Z.min 10 (len (query_all db) - (args_get_page req - 1) * 10) /\
     1 <= len (qr_questions r) <= qr_total_questions r).
Proof.
  intros Hn.
  assert (L : len (paginate_questions req (query_all db))
              = Z.min 10 (Z.max 0 (len (query_all db) - (args_get_page req - 1) * 10))).
  { unfold paginate_questions. rewrite paginate_length by (assumption || reflexivity).
    now rewrite len_map. }
  split.
  - rewrite get_questions_not_found_iff, <- len_zero, Z.eqb_eq, L. lia.
  - intros r Hr. unfold get_questions in Hr.
    destruct (len (paginate_questions req (query_all db)) =? 0) eqn:E;
      [discriminate|].
    injection Hr as <-. simpl. apply Z.eqb_neq in E. rewrite L in *.
    unfold len in *. lia.
Qed.

Lemma get_questions_page_exists_witness :
  1 <= args_get_page page_two /\
  get_questions page_two twelve_db <> Raise NotFound /\
  get_questions page_two sample_db = Raise NotFound.
Proof.
  split; [vm_compute; discriminate|].
  destruct (get_questions_page_exists page_two twelve_db) as [H12 _];
    [vm_compute; discriminate|].
  destruct (get_questions_page_exists page_two sample_db) as [H3 _];
    [vm_compute; discriminate|].
  split.
  - intros E. apply H12 in E. vm_compute in E. now apply E.
  - apply H3. vm_compute. discriminate.
Defined.

Lemma slice_index_range (n i : Z) : 0 <= n -> 0 <= slice_index n i <= n.
Proof. intros Hn. unfold slice_index. destruct (Z.ltb_spec i 0); lia. Qed.

Lemma slice_stop_zero {A : Type} (l : list A) (start : Z) : slice l start 0 = [].
Proof.
  unfold slice.
  assert (Hn : 0 <= len l) by (unfold len; lia).
  pose proof (slice_index_range (len l) start Hn) as Hlo.
  replace (slice_index (len l) 0) with 0
    by (unfold slice_index; rewrite Z.ltb_irrefl; unfold len; lia).
  replace (Z.to_nat (0 - slice_index (len l) start)) with 0%nat by lia.
  reflexivity.
Qed.

(** X3 — page 0 is the slice [[-10:0]], which is empty whatever the listing:
    [GET /questions?page=0] always aborts with 404. *)
Theorem get_questions_page_zero (db : Store) :
  paginate_questions {| page_arg := Some 0 |} (query_all db) = [] /\
  get_questions {| page_arg := Some 0 |} db = Raise NotFound.
Proof.
  assert (E : paginate_questions {| page_arg := Some 0 |} (query_all db) = []).
  { unfold paginate_questions, paginate. simpl. apply slice_stop_zero. }
  split; [exact E|]. now apply get_questions_not_found_iff.
Qed.

(** X4 — a negative page [n] is a slice counted from the end of the listing:
    the questions from position [len + (n - 1) * 10] up to [len + n * 10],
    both clipped at 0.  So [GET /questions?page=n] with [n < 0] aborts with
    404 exactly when there are at most [-n * 10] questions, and answers
    with earlier questions of the listing otherwise. *)
Theorem get_questions_negative_page (n : Z) (db : Store) :
  n < 0 ->
  let L := len (query_all db) in
  let lo := Z.max (L + (n - 1) * 10) 0 in
  let hi := Z.max (L + n * 10) 0 in
  paginate_questions {| page_arg := Some n |} (query_all db)
  = take (Z.to_nat (hi - lo))
         (drop (Z.to_nat lo) (map Question.format (query_all db))) /\
  (get_questions {| page_arg := Some n |} db = Raise NotFound <-> L <= - n * 10).
Proof.
  intros Hn L lo hi.
  assert (E : paginate_questions {| page_arg := Some n |} (query_all db)
              = take (Z.to_nat (hi - lo))
                     (drop (Z.to_nat lo) (map Question.format (query_all db)))).
  { unfold paginate_questions, paginate, slice, slice_index, args_get_page.
    simpl. rewrite len_map. fold L. unfold QUESTIONS_PER_PAGE.
    replace ((n - 1) * 10 <? 0) with true by (symmetry; apply Z.ltb_lt; lia).
    replace ((n - 1) * 10 + 10 <? 0) with true by (symmetry; apply Z.ltb_lt; lia).
    subst lo hi. do 2 f_equal; lia. }
  split; [exact E|].
  rewrite get_questions_not_found_iff, E, <- len_zero, Z.eqb_eq.
  unfold len. rewrite length_take, length_drop, length_map.
  subst L lo hi. unfold len. lia.
Qed.

Lemma get_questions_negative_page_witness :
  -1 < 0 /\
  (exists r, get_questions {| page_arg := Some (-1) |} twelve_db = Return r /\
             len (qr_questions r) = 2) /\
  get_questions {| page_arg := Some (-1) |} sample_db = Raise NotFound.
Proof.
  split; [lia|]. split.
  - eexists. split; reflexivity.
  - apply (get_questions_negative_page (-1) sample_db); [lia|].
    vm_compute. discriminate.
Defined.

(** ** Categories *)

Lemma category_dict_fold_other (categories : list Category.t)
    (d : gmap Z string) (i : Z) :
  ~ In i (map Category.id categories) ->
  foldl (fun d c => <[Category.id c := Category.type c]> d) d categories !! i
  = d !! i.
Proof.
  revert d. induction categories as [|a l IH]; intros d Hi; simpl; [reflexivity|].
  simpl in Hi. rewrite IH by tauto. apply lookup_insert_ne. tauto.
Qed.

Lemma category_dict_fold_some (categories : list Category.t)
    (d : gmap Z string) (i : Z) (t : string) :
  foldl (fun d c => <[Category.id c := Category.type c]> d) d categories !! i
  = Some t ->
  (exists c, In c categories /\ Category.id c = i /\ Category.type c = t)
  \/ d !! i = Some t.
Proof.
  revert d. induction categories as [|a l IH]; intros d H; simpl in *; [now right|].
  apply IH in H as [(c & Hc & Hi & Ht)|H].
  - left. exists c. tauto.
  - destruct (decide (Category.id a = i)) as [E|E].
    + rewrite E, lookup_insert_eq in H. injection H as <-.
      left. exists a. tauto.
    + rewrite lookup_insert_ne in H by assumption. now right.
Qed.

Lemma category_dict_fold_is_Some (categories : list Category.t)
    (d : gmap Z string) (i : Z) :
  is_Some (d !! i) \/ In i (map Category.id categories) ->
  is_Some (foldl (fun d c => <[Category.id c := Category.type c]> d)
                 d categories !! i).
Proof.
  revert d. induction categories as [|a l IH]; intros d H; simpl in *.
  - tauto.
  - apply IH. destruct (decide (Category.id a = i)) as [E|E].
    + left. rewrite E, lookup_insert_eq. eauto.
    + rewrite lookup_insert_ne by assumption. tauto.
Qed.

Lemma category_dict_fold_nodup (categories : list Category.t)
    (d : gmap Z string) (c : Category.t) :
  NoDup (map Category.id categories) -> In c categories ->
  foldl (fun d c => <[Category.id c := Category.type c]> d) d categories
    !! Category.id c
  = Some (Category.type c).
Proof.
  revert d. induction categories as [|a l IH]; intros d Hnd Hc; simpl in *;
    [destruct Hc|].
  apply NoDup_cons in Hnd as [Ha Hnd]. rewrite list_elem_of_In in Ha.
  destruct Hc as [->|Hc].
  - rewrite category_dict_fold_other by assumption. apply lookup_insert_eq.
  - now apply IH.
Qed.

(** X5 — [GET /categories] aborts with 404 exactly when there is no category.
    Otherwise the keys of the dict it returns are the ids of the
    categories, every entry is the label of a category with that id, and
    with distinct ids every category is found under its id. *)
Theorem get_all_categories_result (db : Store) :
  (get_all_categories db = Raise NotFound <-> categories_table db = []) /\
  (forall r, get_all_categories db = Return r ->
     ar_success r = true /\
     (forall i t, ar_categories r !! i = Some t ->
        exists c, In c (categories_table db) /\
                  Category.id c = i /\ Category.type c = t) /\
     (forall c, In c (categories_table db) ->
        is_Some (ar_categories r !! Category.id c)) /\
     (NoDup (map Category.id (categories_table db)) ->
      forall c, In c (categories_table db) ->
        ar_categories r !! Category.id c = Some (Category.type c))).
Proof.
  unfold get_all_categories. split.
  - destruct (len (categories_table db) =? 0) eqn:E.
    + apply len_zero in E. split; [intros _; exact E|reflexivity].
    + apply len_zero_false in E. split; [discriminate|congruence].
  - intros r. destruct (len (categories_table db) =? 0); [discriminate|].
    intros [= <-]. simpl. unfold category_dict_of.
    split; [reflexivity|]. split; [|split].
    + intros i t H. apply category_dict_fold_some in H as [H|H]; [exact H|].
      rewrite lookup_empty in H. discriminate.
    + intros c Hc. apply category_dict_fold_is_Some. right. now apply in_map.
    + intros Hnd c Hc. now apply category_dict_fold_nodup.
Qed.

(** X6 — [GET /questions] does not need a category: on a store with questions
    and no category it returns with an empty [categories] list, where
    [GET /categories] aborts with 404.  Its [categories] are always the
    labels in listing order, one per category. *)
Theorem get_questions_categories (req : request) (db : Store) :
  (forall r, get_questions req db = Return r ->
     qr_categories r = map Category.type (categories_table db) /\
     qr_current_category r = None /\ qr_success r = true) /\
  (categories_table db = [] -> questions_table db <> [] ->
   get_all_categories db = Raise NotFound /\
   exists r, get_questions no_page db = Return r /\ qr_categories r = []).
Proof.
  split.
  - intros r. unfold get_questions.
    destruct (len (paginate_questions req (query_all db)) =? 0); [discriminate|].
    intros [= <-]. simpl. auto.
  - intros Hc Hq. split.
    + unfold get_all_categories. now rewrite Hc.
    + destruct (get_questions no_page db) as [r|e] eqn:E.
      * exists r. split; [reflexivity|].
        unfold get_questions in E.
        destruct (len (paginate_questions no_page (query_all db)) =? 0);
          [discriminate|].
        injection E as <-. simpl. now rewrite Hc.
      * exfalso. unfold get_questions in E.
        destruct (len (paginate_questions no_page (query_all db)) =? 0) eqn:Z0;
          [|discriminate].
        apply len_zero in Z0. unfold paginate_questions in Z0.
        change (args_get_page no_page) with 1 in Z0.
        change QUESTIONS_PER_PAGE with 10 in Z0.
        rewrite paginate_take_drop in Z0 by lia.
        unfold query_all in Z0. destruct (questions_table db); [congruence|].
        discriminate.
Qed.

(** ** Failures of the delete *)

(** X7 — with distinct ids, [DELETE /questions/<id>] fails in three ways
    only.  The lookup raises [DataError], which nothing catches, when the
    id does not fit the integer column; the handler aborts with 404 when
    the id fits and no question has it; in both cases the store is
    untouched.  It aborts with 422, in the store the repository left, when
    the repository's [delete] raised, whatever it raised. *)
Theorem get_question_failures (repo : Repository) (req : request) (id : Z)
    (db : Store) :
  NoDup (map Question.id (questions_table db)) ->
  (in_integer_range id = false ->
   @get_question repo req id db = (Raise DataError, db)) /\
  (forall q e db', in_integer_range id = true ->
     In q (questions_table db) -> Question.id q = id ->
     @delete repo q db = (Raise e, db') ->
     @get_question repo req id db = (Raise UnprocessableEntity, db')) /\
  (forall e db', @get_question repo req id db = (Raise e, db') ->
     (e = DataError /\ db' = db /\ in_integer_range id = false) \/
     (e = NotFound /\ db' = db /\ in_integer_range id = true /\
      forall q, In q (questions_table db) -> Question.id q <> id) \/
     (e = UnprocessableEntity /\ in_integer_range id = true /\
      exists q e0, In q (questions_table db) /\ Question.id q = id /\
                   @delete repo q db = (Raise e0, db'))).
Proof.
  intros Hnd. split; [apply get_question_out_of_range|]. split.
  - intros q e db' Hr Hin <- Hdel.
    rewrite (@get_question_found repo req db q Hr Hnd Hin). now rewrite Hdel.
  - intros e db' Hres.
    destruct (in_integer_range id) eqn:Hr.
    2:{ rewrite (@get_question_out_of_range repo req id db Hr) in Hres.
        injection Hres as <- <-. left. auto. }
    right.
    destruct (List.filter (id_is id) (questions_table db)) as [|q rest] eqn:F.
    + assert (Hno : forall q, In q (questions_table db) -> Question.id q <> id).
      { intros q Hq E. apply (proj1 (filter_nil_iff _ _) F) in Hq.
        apply id_is_spec in E. congruence. }
      rewrite (@get_question_not_found repo req id db Hr Hno) in Hres.
      injection Hres as <- <-. left. auto.
    + assert (Hq : In q (List.filter (id_is id) (questions_table db)))
        by (rewrite F; now left).
      apply filter_In in Hq as [Hin Hid]. apply id_is_spec in Hid. subst id.
      rewrite (@get_question_found repo req db q Hr Hnd Hin) in Hres.
      destruct (@delete repo q db) as [[u|e0] db0] eqn:D.
      * discriminate.
      * injection Hres as <- <-. right. split; [reflexivity|].
        split; [reflexivity|]. exists q, e0. auto.
Qed.

Lemma get_question_failures_witness :
  NoDup (map Question.id (questions_table sample_db)) /\
  @get_question broken_repository no_page 2 sample_db
  = (Raise UnprocessableEntity, sample_db) /\
  @get_question broken_repository no_page 2147483648 sample_db
  = (Raise DataError, sample_db).
Proof.
  assert (Hnd : NoDup (map Question.id (questions_table sample_db))).
  { apply (bool_decide_unpack _). vm_compute. exact I. }
  split; [exact Hnd|].
  destruct (get_question_failures broken_repository no_page 2 sample_db Hnd)
    as (_ & Hraise & _).
  destruct (get_question_failures broken_repository no_page 2147483648
              sample_db Hnd) as (Hrange & _).
  split.
  - apply (Hraise q_cairo RepositoryError sample_db);
      [reflexivity|simpl; auto|reflexivity..].
  - apply Hrange. reflexivity.
Defined.

(** ** Outcomes of the create and of the dispatch *)

Lemma all_present_iff (json_body : dict) :
  is_None (get json_body "question") || is_None (get json_body "answer")
  || is_None (get json_body "difficulty") || is_None (get json_body "category")
  = false
  <-> all_present json_body.
Proof.
  unfold all_present. rewrite !orb_false_iff, !is_None_false. tauto.
Qed.

(** X8 — [insert_question] returns exactly when the four fields are there and
    the repository's [insert] returns; it then answers with the id and the
    text of the row as stored and with the page of the listing after the
    insert.  It raises nothing but 422: no path out of it gives 400. *)
Theorem insert_question_outcomes (repo : Repository) (req : request)
    (json_body : dict) (db : Store) :
  (forall r db', @insert_question repo req json_body db = (Return r, db') <->
     all_present json_body /\
     exists question,
       @insert repo (mkNew (get json_body "question") (get json_body "answer")
                           (get json_body "category") (get json_body "difficulty")) db
       = (Return question, db') /\
       r = {| cr_success := true;
              cr_questions := paginate_questions req (query_all db');
              cr_created := Question.id question;
              cr_question_created := Question.question question |}) /\
  (forall e db', @insert_question repo req json_body db = (Raise e, db') ->
     e = UnprocessableEntity).
Proof.
  rewrite (@insert_question_cases repo).
  destruct (_ || _ || _ || _) eqn:P.
  - split.
    + intros r db'. split; [discriminate|].
      intros [Hall _]. apply all_present_iff in Hall. congruence.
    + intros e db' [= <- _]. reflexivity.
  - apply all_present_iff in P.
    destruct (@insert repo _ db) as [[question|e0] db0]; split.
    + intros r db'. split.
      * intros [= <- <-]. split; [assumption|]. now exists question.
      * intros [_ (question' & [= <- <-] & ->)]. reflexivity.
    + discriminate.
    + intros r db'. split; [discriminate|].
      intros [_ (question' & Hq & _)]. discriminate.
    + intros e db' [= <- _]. reflexivity.
Qed.

Lemma search_question_raises (json_body : dict) (db : Store) (e : exn) :
  search_question json_body db = Raise e -> e = NotFound \/ e = TypeError.
Proof.
  unfold search_question, search_term_of.
  destruct (default (JStr "") (json_body !! "searchTerm")); simpl;
    try (intros [= <-]; now right).
  destruct (len _ =? 0); [intros [= <-]; now left|discriminate].
Qed.

Lemma post_question_search (repo : Repository) (req : request)
    (json_body : dict) (db : Store) :
  get json_body "question" = JNull -> get json_body "searchTerm" <> JNull ->
  @post_question repo req json_body db =
  (match search_question json_body db with
   | Return r => Return (inr r)
   | Raise e => Raise e
   end, db).
Proof.
  intros Hq Hs. unfold post_question. rewrite Hq. simpl.
  apply is_None_false in Hs. rewrite Hs. simpl.
  destruct (search_question json_body db); reflexivity.
Qed.

(** X9 — [POST /questions] aborts with 400 exactly when the body has neither a
    [question] nor a [searchTerm] (absent or null), and then it leaves the
    store as it was. *)
Theorem post_question_bad_request (repo : Repository) (req : request)
    (json_body : dict) (db db' : Store) :
  @post_question repo req json_body db = (Raise InvalidRequest, db') <->
  get json_body "question" = JNull /\ get json_body "searchTerm" = JNull /\
  db' = db.
Proof.
  split.
  - intros H.
    destruct (get json_body "question") eqn:Hq.
    + destruct (get json_body "searchTerm") eqn:Hs.
      * unfold post_question in H. rewrite Hq, Hs in H. simpl in H.
        injection H as <-. auto.
      * rewrite post_question_search in H by congruence.
        destruct (search_question json_body db) eqn:S; [discriminate|].
        injection H as -> <-. apply search_question_raises in S.
        destruct S; discriminate.
      * rewrite post_question_search in H by congruence.
        destruct (search_question json_body db) eqn:S; [discriminate|].
        injection H as -> <-. apply search_question_raises in S.
        destruct S; discriminate.
    + rewrite (@post_question_create repo) in H by congruence.
      rewrite (@insert_question_cases repo) in H.
      destruct (_ || _ || _ || _); [discriminate|].
      destruct (@insert repo _ db) as [[q|e0] db0]; discriminate.
    + rewrite (@post_question_create repo) in H by congruence.
      rewrite (@insert_question_cases repo) in H.
      destruct (_ || _ || _ || _); [discriminate|].
      destruct (@insert repo _ db) as [[q|e0] db0]; discriminate.
  - intros (Hq & Hs & ->). unfold post_question. rewrite Hq, Hs. reflexivity.
Qed.

(** X10 — a body without [question] never writes: whatever the repository, the
    store after [POST /questions] is the store before, and with a
    [searchTerm] the answer is that of [search_question]. *)
Theorem post_question_search_read_only (repo : Repository) (req : request)
    (json_body : dict) (db : Store) :
  get json_body "question" = JNull ->
  snd (@post_question repo req json_body db) = db /\
  (get json_body "searchTerm" <> JNull ->
   fst (@post_question repo req json_body db) =
   match search_question json_body db with
   | Return r => Return (inr r)
   | Raise e => Raise e
   end).
Proof.
  intros Hq. split.
  - destruct (get json_body "searchTerm") eqn:Hs.
    + unfold post_question. rewrite Hq, Hs. reflexivity.
    + rewrite post_question_search by congruence. reflexivity.
    + rewrite post_question_search by congruence. reflexivity.
  - intros Hs. now rewrite post_question_search.
Qed.

Lemma post_question_search_read_only_witness :
  get body_search_paris "question" = JNull /\
  snd (@post_question spec_repository no_page body_search_paris sample_db)
  = sample_db.
Proof.
  assert (Hq : get body_search_paris "question" = JNull) by reflexivity.
  split; [exact Hq|].
  apply (post_question_search_read_only spec_repository no_page
           body_search_paris sample_db Hq).
Defined.

(** X11 — a [searchTerm] that is a number cannot be concatenated with ["%"]:
    the search raises [TypeError], which no handler of the file catches,
    and aborts with none of 400, 404, 422. *)
Theorem post_question_search_term_number (repo : Repository) (req : request)
    (json_body : dict) (db : Store) (n : Z) :
  get json_body "question" = JNull ->
  json_body !! "searchTerm" = Some (JInt n) ->
  search_question json_body db = Raise TypeError /\
  @post_question repo req json_body db = (Raise TypeError, db).
Proof.
  intros Hq Hs.
  assert (S : search_question json_body db = Raise TypeError).
  { unfold search_question, search_term_of. now rewrite Hs. }
  split; [exact S|].
  rewrite post_question_search; [now rewrite S|assumption|].
  unfold get. rewrite Hs. discriminate.
Qed.

Lemma post_question_search_term_number_witness :
  get body_search_number "question" = JNull /\
  body_search_number !! "searchTerm" = Some (JInt 5) /\
  @post_question spec_repository no_page body_search_number sample_db
  = (Raise TypeError, sample_db).
Proof.
  assert (Hq : get body_search_number "question" = JNull) by reflexivity.
  assert (Hs : body_search_number !! "searchTerm" = Some (JInt 5)) by reflexivity.
  split; [exact Hq|]. split; [exact Hs|].
  apply (post_question_search_term_number spec_repository no_page
           body_search_number sample_db 5 Hq Hs).
Defined.

(** ** Searching, continued *)

Lemma like_underscore (pattern : string) (d : ascii) (text : string) :
  like (String "_" pattern) (String d text) = like pattern text.
Proof. reflexivity. Qed.

Lemma like_term_prefix (term text : string) :
  no_escape term = true -> starts_with term text = true ->
  like (term +:+ "%") text = true.
Proof.
  revert text. induction term as [|c term IH]; intros text Hne Hs.
  - apply like_percent.
  - simpl in Hne. apply andb_true_iff in Hne as [Hc Hne].
    apply negb_true_iff in Hc.
    destruct text as [|d text]; [discriminate|]. simpl in Hs.
    apply andb_true_iff in Hs as [Hcd Hs]. apply Ascii.eqb_eq in Hcd. subst d.
    specialize (IH text Hne Hs).
    change (String c term +:+ "%") with (String c (term +:+ "%")).
    destruct (Ascii.eqb c "%") eqn:Hp.
    + apply Ascii.eqb_eq in Hp. subst c.
      rewrite like_any. apply orb_true_iff. right.
      rewrite like_any, IH. reflexivity.
    + destruct (Ascii.eqb c "_") eqn:Hu.
      * apply Ascii.eqb_eq in Hu. subst c. now rewrite like_underscore.
      * rewrite like_literal by assumption. now rewrite Ascii.eqb_refl, IH.
Qed.

Lemma like_term_contains (term text : string) :
  no_escape term = true -> contains term text = true ->
  like ("%" +:+ term +:+ "%") text = true.
Proof.
  intros Hne. change ("%" +:+ term +:+ "%") with (String "%" (term +:+ "%")).
  induction text as [|d text IH]; simpl contains; intros Hc; rewrite like_any.
  - rewrite orb_false_r in Hc. now rewrite like_term_prefix.
  - apply orb_true_iff in Hc as [Hc|Hc].
    + now rewrite like_term_prefix.
    + rewrite IH by assumption. apply orb_true_r.
Qed.

Lemma no_escape_lower (term : string) : no_escape (lower term) = no_escape term.
Proof.
  induction term as [|c term IH]; simpl; [reflexivity|].
  destruct (lower_ascii_special c) as (_ & _ & ->). now rewrite IH.
Qed.

Lemma starts_with_refl (s : string) : starts_with s s = true.
Proof. induction s as [|c s IH]; simpl; [reflexivity|]. now rewrite Ascii.eqb_refl. Qed.

Lemma contains_refl (s : string) : contains s s = true.
Proof. destruct s; simpl; [reflexivity|]. now rewrite Ascii.eqb_refl, starts_with_refl. Qed.

(** X12 — whatever [%] and [_] the term holds, as long as it holds no backslash
    the search misses nothing: every question whose text contains the
    term, letter case aside, is among the results.  In particular the
    search for the whole text of a question finds that question. *)
Theorem search_finds_containing (items : list Question.t) (term : string) :
  no_escape term = true ->
  (forall q, In q items -> contains_ci term (Question.question q) = true ->
             In q (search items term)) /\
  (forall q, In q items -> Question.question q = term -> In q (search items term)).
Proof.
  intros Hne.
  assert (H : forall q, In q items ->
              contains_ci term (Question.question q) = true ->
              In q (search items term)).
  { intros q Hq Hc. unfold search. apply filter_In. split; [assumption|].
    unfold ilike, contains_ci in *. rewrite !lower_app.
    apply like_term_contains; [now rewrite no_escape_lower|assumption]. }
  split; [exact H|].
  intros q Hq <-. apply H; [assumption|]. apply contains_refl.
Qed.

Lemma search_finds_containing_witness :
  no_escape (Question.question q_water) = true /\
  In q_water (search (questions_table sample_db) (Question.question q_water)).
Proof.
  split; [reflexivity|].
  apply (search_finds_containing (questions_table sample_db)
           (Question.question q_water) eq_refl).
  - simpl. auto.
  - reflexivity.
Defined.



(** ** The quiz, continued *)

Lemma check_category_json_raises (shuffle : list Question.t -> list Question.t)
    (category_id : json) (previous : list Z) (db : Store) (e : exn) :
  check_category_json shuffle category_id previous db = Raise e -> e = NotFound.
Proof.
  unfold check_category_json. destruct (len _ =? 0); [|discriminate].
  now intros [= <-].
Qed.

Lemma check_category_json_int (shuffle : list Question.t -> list Question.t)
    (category_id : Z) (previous : list Z) (db : Store) :
  check_category_json shuffle (JInt category_id) previous db
  = check_category shuffle category_id previous db.
Proof. reflexivity. Qed.

(** X14 — [POST /quizzes] reads [quiz_category['id']] before it checks the
    keys.  A body whose [quiz_category] is missing, null or not a dict
    raises [TypeError], and one whose [quiz_category] is a dict without
    [id] raises [KeyError], with or without [previous_questions]; nothing
    catches them.  The 400 is reached exactly when [quiz_category] is a
    dict that has an [id] and [previous_questions] is missing; the pool is
    not looked at before.  On a body with both keys and an integer id the
    handler is [get_quizzes]. *)
Theorem get_quizzes_missing_keys (shuffle : list Question.t -> list Question.t)
    (json_body : quiz_json) (db : Store) :
  (qj_quiz_category json_body = CNull \/ qj_quiz_category json_body = COther ->
   get_quizzes_json shuffle json_body db = Raise TypeError) /\
  (forall entries, qj_quiz_category json_body = CDict entries ->
     entries !! "id" = None ->
     get_quizzes_json shuffle json_body db = Raise KeyError) /\
  (get_quizzes_json shuffle json_body db = Raise InvalidRequest <->
   (exists entries, qj_quiz_category json_body = CDict entries /\
                    is_Some (entries !! "id")) /\
   qj_previous_questions json_body = None) /\
  (forall body : quiz_body,
     get_quizzes_json shuffle (quiz_json_of body) db = get_quizzes shuffle body db).
Proof.
  split; [|split; [|split]].
  - unfold get_quizzes_json. intros [-> | ->]; reflexivity.
  - unfold get_quizzes_json. intros entries -> Hid. simpl. now rewrite Hid.
  - destruct json_body as [previous [|entries|]]; unfold get_quizzes_json; simpl.
    + split; [discriminate|]. intros [(entries & H & _) _]. discriminate.
    + destruct (entries !! "id") as [v|] eqn:Hid; simpl.
      * destruct previous as [previous|].
        -- split.
           ++ destruct (check_category_json shuffle v previous db) as [[q|]|e] eqn:C;
                simpl; try discriminate.
              apply check_category_json_raises in C. subst e. discriminate.
           ++ intros [_ H]. discriminate.
        -- split; [|reflexivity]. intros _. split; [|reflexivity].
           exists entries. split; [reflexivity|]. rewrite Hid. eauto.
      * split; [discriminate|].
        intros [(entries' & [= <-] & Hsome) _]. rewrite Hid in Hsome.
        now destruct Hsome.
    + split; [discriminate|]. intros [(entries & H & _) _]. discriminate.
  - intros [previous [category_id|]]; unfold get_quizzes_json, get_quizzes,
      quiz_json_of; simpl; [|reflexivity].
    rewrite lookup_insert_eq. simpl.
    destruct previous as [previous|]; [|reflexivity].
    now rewrite check_category_json_int.
Qed.

Lemma filter_partition_perm {A : Type} (f : A -> bool) (l : list A) :
  Permutation (List.filter f l ++ List.filter (fun x => negb (f x)) l) l.
Proof.
  induction l as [|a l IH]; simpl; [reflexivity|].
  destruct (f a); simpl.
  - now constructor.
  - rewrite <- Permutation_middle. now constructor.
Qed.

Lemma draw_first_perm (q : Question.t) (l : list Question.t) :
  Permutation (draw_first q l) l.
Proof. apply filter_partition_perm. Qed.

Lemma filter_eq_head (q : Question.t) (l : list Question.t) :
  In q l ->
  exists rest, List.filter (fun x => bool_decide (x = q)) l = q :: rest.
Proof.
  induction l as [|a l IH]; simpl; intros Hin; [destruct Hin|].
  destruct (bool_decide (a = q)) eqn:E.
  - apply bool_decide_eq_true in E. subst a. eauto.
  - destruct Hin as [->|Hin]; [|now apply IH].
    apply bool_decide_eq_false in E. now destruct E.
Qed.

(** X15 — every question of the pool that has not been asked can be the answer:
    there is an outcome of the shuffle for which [get_different_question]
    returns it. *)
Theorem get_different_question_any_unseen (questions : list Question.t)
    (previous : list Z) (q : Question.t) :
  In q questions -> ~ In (Question.id q) previous ->
  (forall l, Permutation (draw_first q l) l) /\
  get_different_question (draw_first q) questions previous = Some q.
Proof.
  intros Hin Hnot. split; [apply draw_first_perm|].
  unfold get_different_question, draw_first.
  destruct (filter_eq_head q questions Hin) as [rest ->]. simpl.
  replace (py_in (Question.id q) previous) with false; [reflexivity|].
  symmetry. apply not_true_iff_false. now rewrite py_in_spec.
Qed.

Lemma get_different_question_any_unseen_witness :
  In q_water (questions_table sample_db) /\ ~ In (Question.id q_water) [1] /\
  get_different_question (draw_first q_water) (questions_table sample_db) [1]
  = Some q_water.
Proof.
  assert (Hin : In q_water (questions_table sample_db)) by (simpl; auto).
  assert (Hnot : ~ In (Question.id q_water) [1])
    by (simpl; intros [H|[]]; discriminate).
  split; [exact Hin|]. split; [exact Hnot|].
  apply (get_different_question_any_unseen (questions_table sample_db) [1]
           q_water Hin Hnot).
Defined.

Lemma filter_length_lt {A : Type} (f : A -> bool) (l : list A) (x : A) :
  In x l -> f x = false -> (length (List.filter f l) < length l)%nat.
Proof.
  induction l as [|a l IH]; simpl; intros Hin Hf; [destruct Hin|].
  pose proof (filter_length_le f l) as Hle.
  destruct Hin as [->|Hin].
  - rewrite Hf. lia.
  - specialize (IH Hin Hf). destruct (f a); simpl; lia.
Qed.

Lemma unseen_app (questions : list Question.t) (previous : list Z) (i : Z) :
  unseen questions (previous ++ [i])
  = List.filter (fun q => negb (Question.id q =? i)) (unseen questions previous).
Proof.
  unfold unseen. induction questions as [|a l IH]; simpl; [reflexivity|].
  unfold py_in at 1. rewrite existsb_app. fold (py_in (Question.id a) previous).
  simpl. rewrite orb_false_r.
  destruct (py_in (Question.id a) previous); simpl; [exact IH|].
  destruct (Question.id a =? i); simpl; [exact IH|now rewrite IH].
Qed.

(** X16 — each answer brings the quiz forward: the question returned was not
    asked before, and once its id joins the previous ones there are
    strictly fewer questions left to ask.  The quiz answers [None] exactly
    when none is left. *)
Theorem get_different_question_progress
    (shuffle : list Question.t -> list Question.t)
    (questions : list Question.t) (previous : list Z) :
  (forall l, Permutation (shuffle l) l) ->
  (forall q, get_different_question shuffle questions previous = Some q ->
     In q (unseen questions previous) /\
     (length (unseen questions (previous ++ [Question.id q]))
      < length (unseen questions previous))%nat) /\
  (get_different_question shuffle questions previous = None
   <-> unseen questions previous = []).
Proof.
  intros Hperm. split.
  - intros q Hq.
    apply (get_different_question_some shuffle Hperm) in Hq as [Hin Hnot].
    assert (Hu : In q (unseen questions previous)).
    { unfold unseen. apply filter_In. split; [assumption|].
      apply negb_true_iff, not_true_iff_false. now rewrite py_in_spec. }
    split; [exact Hu|].
    rewrite unseen_app. apply (filter_length_lt _ _ q Hu).
    now rewrite Z.eqb_refl.
  - rewrite (get_different_question_none shuffle Hperm).
    unfold unseen. rewrite filter_nil_iff. split; intros H q Hq.
    + apply negb_false_iff, py_in_spec. now apply H.
    + apply py_in_spec, negb_false_iff. now apply H.
Qed.

Lemma get_different_question_progress_witness :
  (forall l : list Question.t, Permutation (random_shuffle (fun _ => 7%nat) l) l) /\
  (exists q,
     get_different_question (random_shuffle (fun _ => 7%nat))
                            (questions_table sample_db) [1] = Some q /\
     (length (unseen (questions_table sample_db) ([1%Z] ++ [Question.id q]))
      < length (unseen (questions_table sample_db) [1%Z]))%nat).
Proof.
  split; [intros l; apply random_shuffle_perm|].
  destruct (get_different_question_progress (random_shuffle (fun _ => 7%nat))
              (questions_table sample_db) [1]
              (fun l => random_shuffle_perm _ l)) as [H _].
  eexists. split; [reflexivity|]. apply H. reflexivity.
Defined.

(** ** Categories of the questions returned *)

Lemma format_category (q : Question.t) :
  Question.format q !! "category" = Some (JStr (Question.category q)).
Proof.
  unfold Question.format.
  rewrite !lookup_insert_ne by discriminate. apply lookup_insert_eq.
Qed.

(** X17 — for a category id other than 0, [GET /categories/<id>/questions] lists
    exactly the pool the quiz draws from for that id: both abort with 404
    on the same stores, and every question listed carries [str(id)] as its
    [category]. *)
Theorem get_by_category_same_pool (shuffle : list Question.t -> list Question.t)
    (id : Z) (previous : list Z) (db : Store) :
  id <> 0 ->
  (get_by_category id db = Raise NotFound
   <-> check_category shuffle id previous db = Raise NotFound) /\
  (forall r, get_by_category id db = Return r ->
     lr_questions r = map Question.format (pool id db) /\
     Forall (fun d : dict => d !! "category" = Some (JStr (str id)))
            (lr_questions r)).
Proof.
  intros Hid. apply Z.eqb_neq in Hid.
  unfold get_by_category, check_category, pool. rewrite Hid.
  rewrite len_map.
  destruct (len (query_filter (category_is id) db) =? 0); split.
  - split; reflexivity.
  - discriminate.
  - split; discriminate.
  - intros r [= <-]. simpl. split; [reflexivity|].
    apply Forall_forall. intros d Hd. apply list_elem_of_In in Hd.
    apply in_map_iff in Hd as (q & <- & Hq).
    unfold query_filter in Hq. apply filter_In in Hq as [_ Hc].
    apply category_is_spec in Hc. rewrite format_category. now rewrite Hc.
Qed.

Lemma get_by_category_same_pool_witness :
  3 <> 0 /\
  (exists r, get_by_category 3 sample_db = Return r /\
             lr_questions r = map Question.format (pool 3 sample_db) /\
             lr_total_questions r = 2).
Proof.
  split; [discriminate|].
  destruct (get_by_category_same_pool (fun l => l) 3 [] sample_db ltac:(discriminate))
    as [_ H].
  eexists. split; [reflexivity|]. split; [|reflexivity].
  apply H. reflexivity.
Defined.

(** X18 — the quiz for a category id other than 0 only answers with questions of
    that category. *)
Theorem get_quizzes_category_of_answer
    (shuffle : list Question.t -> list Question.t)
    (category_id : Z) (previous : list Z) (db : Store) (r : QuizResponse)
    (d : dict) :
  (forall l, Permutation (shuffle l) l) ->
  category_id <> 0 ->
  get_quizzes shuffle (mkQuizBody (Some previous) (Some category_id)) db
  = Return r ->
  zr_question r = Some d ->
  d !! "category" = Some (JStr (str category_id)).
Proof.
  intros Hperm Hid. unfold get_quizzes, check_category. simpl.
  destruct (len (pool category_id db) =? 0); simpl; [discriminate|].
  destruct (get_different_question shuffle (pool category_id db) previous)
    as [q|] eqn:G; simpl.
  - intros [= <-] [= <-].
    apply (get_different_question_some shuffle Hperm) in G as [Hin _].
    apply pool_spec in Hin as [_ [H0|Hc]]; [contradiction|].
    rewrite format_category. now rewrite Hc.
  - intros [= <-]. discriminate.
Qed.

Lemma get_quizzes_category_of_answer_witness :
  (forall l : list Question.t, Permutation (random_shuffle (fun _ => 7%nat) l) l) /\
  3 <> 0 /\
  get_quizzes (random_shuffle (fun _ => 7%nat))
              (mkQuizBody (Some [1]) (Some 3)) sample_db
  = Return {| zr_success := true; zr_question := Some (Question.format q_cairo) |} /\
  Question.format q_cairo !! "category" = Some (JStr (str 3)).
Proof.
  split; [intros l; apply random_shuffle_perm|].
  split; [discriminate|]. split; [reflexivity|].
  apply (get_quizzes_category_of_answer (random_shuffle (fun _ => 7%nat))
           3 [1] sample_db
           {| zr_success := true; zr_question := Some (Question.format q_cairo) |}
           (Question.format q_cairo)
           (fun l => random_shuffle_perm _ l)).
  - discriminate.
  - reflexivity.
  - reflexivity.
Defined.

(** X19 — the id 0 means "every category" to the quiz only.  On a store with
    questions, [check_category] with id 0 never aborts; the listing by
    category with id 0 looks for the questions whose category is the text
    [0], and aborts with 404 when there is none. *)
Theorem category_zero_only_in_quiz (shuffle : list Question.t -> list Question.t)
    (previous : list Z) (db : Store) :
  questions_table db <> [] ->
  check_category shuffle 0 previous db
  = Return (get_different_question shuffle (questions_table db) previous) /\
  ((forall q, In q (questions_table db) -> Question.category q <> "0") ->
   get_by_category 0 db = Raise NotFound).
Proof.
  intros Hne. split.
  - unfold check_category, pool, query_all. simpl.
    apply len_zero_false in Hne. now rewrite Hne.
  - intros Hno. unfold get_by_category, query_filter.
    replace (List.filter (category_is 0) (questions_table db)) with (@nil Question.t);
      [reflexivity|].
    symmetry. apply filter_nil_iff. intros q Hq.
    destruct (category_is 0 q) eqn:E; [|reflexivity].
    apply category_is_spec in E. now destruct (Hno q Hq).
Qed.

Lemma category_zero_only_in_quiz_witness :
  questions_table sample_db <> [] /\
  (exists answer, check_category (fun l => l) 0 [] sample_db = Return answer) /\
  get_by_category 0 sample_db = Raise NotFound.
Proof.
  assert (Hne : questions_table sample_db <> []) by discriminate.
  split; [exact Hne|].
  destruct (category_zero_only_in_quiz (fun l => l) [] sample_db Hne) as [Hq Hl].
  split; [eexists; exact Hq|].
  apply Hl. intros q [<-|[<-|[<-|[]]]]; discriminate.
Defined.
